(** * To-Do List App: a shallow embedding of [script.js]

    The page script keeps its task list in the DOM (one [<li>] per task,
    holding a [span.task-text] and a [button.delete-button]), mirrors it to
    [localStorage] under the key [tasks] as JSON, and keeps a light/dark
    preference under the key [themePreference].

    The embedding follows the script function by function.  The DOM parts the
    script touches are a record; [localStorage] is a finite map from strings
    to strings; [alert] appends to a log; an uncaught exception is an
    explicit outcome.  JavaScript strings are sequences of UTF-16 code units,
    written here as lists of integers. *)

From Stdlib Require Import ZArith Lia Bool Ascii String.
From stdpp Require Import base option list gmap.

Local Open Scope Z_scope.
Set Warnings "-register-all".

(** ** JavaScript strings *)

(** A string is its sequence of 16-bit code units. *)
Definition jsstring : Type := list Z.

Definition code_unit (c : Z) : Prop := 0 <= c < 65536.

Definition wf_string (s : jsstring) : Prop := Forall code_unit s.

(** String literals of the script, written in ASCII. *)
Definition str (s : String.string) : jsstring :=
  List.map (fun a => Z.of_N (N_of_ascii a)) (list_ascii_of_string s).

Definition jsstring_eqb (a b : jsstring) : bool := bool_decide (a = b).

(** [WhiteSpace] and [LineTerminator] code points of ECMAScript, the ones
    [String.prototype.trim] strips. *)
Definition is_js_space (c : Z) : bool :=
  (c =? 9) || (c =? 10) || (c =? 11) || (c =? 12) || (c =? 13) || (c =? 32)
  || (c =? 160) || (c =? 5760) || ((8192 <=? c) && (c <=? 8202))
  || (c =? 8232) || (c =? 8233) || (c =? 8239) || (c =? 8287)
  || (c =? 12288) || (c =? 65279).

Fixpoint trimStart (s : jsstring) : jsstring :=
  match s with
  | [] => []
  | c :: r => if is_js_space c then trimStart r else s
  end.

Definition trimEnd (s : jsstring) : jsstring := rev (trimStart (rev s)).

(** [s.trim()] *)
Definition trim (s : jsstring) : jsstring := trimEnd (trimStart s).

(** ** JSON values *)

(** What [JSON.parse] returns and [JSON.stringify] takes.  A number is kept
    as the literal it was read from; an object keeps its members in source
    order. *)
Inductive json : Type :=
  | JNull
  | JBool (b : bool)
  | JNum (lexeme : jsstring)
  | JStr (s : jsstring)
  | JArr (elems : list json)
  | JObj (members : list (jsstring * json)).

(** The values [addTask] can be called with: nothing, the click event the
    button listener passes along, or a property read off parsed JSON. *)
Inductive value : Type :=
  | VUndefined
  | VEvent (tag : jsstring)
  | VJson (j : json).

(** ** JSON.stringify: string quoting *)

Definition is_leading_surrogate (c : Z) : bool := (55296 <=? c) && (c <=? 56319).
Definition is_trailing_surrogate (c : Z) : bool := (56320 <=? c) && (c <=? 57343).

Definition hex_digit (n : Z) : Z := if n <? 10 then 48 + n else 87 + n.

(** [UnicodeEscape]: backslash, [u], four lower-case hex digits. *)
Definition unicode_escape (c : Z) : jsstring :=
  [92; 117; hex_digit (c / 4096); hex_digit ((c / 256) mod 16);
   hex_digit ((c / 16) mod 16); hex_digit (c mod 16)].

(** One code unit that is not half of a surrogate pair. *)
Definition quote_unit (c : Z) : jsstring :=
  if c =? 8 then [92; 98]
  else if c =? 9 then [92; 116]
  else if c =? 10 then [92; 110]
  else if c =? 12 then [92; 102]
  else if c =? 13 then [92; 114]
  else if c =? 34 then [92; 34]
  else if c =? 92 then [92; 92]
  else if (c <? 32) || is_leading_surrogate c || is_trailing_surrogate c
       then unicode_escape c
  else [c].

(** The characters between the quotes of [QuoteJSONString]: a surrogate pair
    is copied, a lone surrogate is escaped. *)
Fixpoint quote_chars (s : jsstring) : jsstring :=
  match s with
  | [] => []
  | c :: r =>
      match r with
      | d :: r' =>
          if is_leading_surrogate c && is_trailing_surrogate d
          then c :: d :: quote_chars r'
          else quote_unit c ++ quote_chars r
      | [] => quote_unit c
      end
  end.

Definition QuoteJSONString (s : jsstring) : jsstring :=
  34 :: quote_chars s ++ [34].

(** ** JSON.parse: lexical level *)

(** JSON white space: tab, line feed, carriage return, space. *)
Definition is_json_ws (c : Z) : bool :=
  (c =? 9) || (c =? 10) || (c =? 13) || (c =? 32).

Fixpoint skip_ws (s : jsstring) : jsstring :=
  match s with
  | [] => []
  | c :: r => if is_json_ws c then skip_ws r else s
  end.

Definition is_digit (c : Z) : bool := (48 <=? c) && (c <=? 57).

Definition hex_val (c : Z) : option Z :=
  if is_digit c then Some (c - 48)
  else if (97 <=? c) && (c <=? 102) then Some (c - 87)
  else if (65 <=? c) && (c <=? 70) then Some (c - 55)
  else None.

Definition hex4 (h1 h2 h3 h4 : Z) : option Z :=
  match hex_val h1, hex_val h2, hex_val h3, hex_val h4 with
  | Some a, Some b, Some c, Some d => Some (((a * 16 + b) * 16 + c) * 16 + d)
  | _, _, _, _ => None
  end.

(** The character a one-letter escape stands for. *)
Definition simple_escape (e : Z) : option Z :=
  if e =? 34 then Some 34
  else if e =? 92 then Some 92
  else if e =? 47 then Some 47
  else if e =? 98 then Some 8
  else if e =? 102 then Some 12
  else if e =? 110 then Some 10
  else if e =? 114 then Some 13
  else if e =? 116 then Some 9
  else None.

Definition cons_unit (c : Z) (k : option (jsstring * jsstring))
  : option (jsstring * jsstring) :=
  match k with
  | Some (body, rest) => Some (c :: body, rest)
  | None => None
  end.

(** A string literal, read from just after its opening quote: the decoded
    characters and what follows the closing quote. *)
Fixpoint lex_string (s : jsstring) : option (jsstring * jsstring) :=
  match s with
  | [] => None
  | c :: r =>
      if c =? 34 then Some ([], r)
      else if c =? 92 then
        match r with
        | [] => None
        | e :: r1 =>
            if e =? 117 then
              match r1 with
              | h1 :: h2 :: h3 :: h4 :: r2 =>
                  match hex4 h1 h2 h3 h4 with
                  | Some u => cons_unit u (lex_string r2)
                  | None => None
                  end
              | _ => None
              end
            else
              match simple_escape e with
              | Some u => cons_unit u (lex_string r1)
              | None => None
              end
        end
      else if c <? 32 then None
      else cons_unit c (lex_string r)
  end.

(** The longest run of decimal digits at the front. *)
Fixpoint take_digits (s : jsstring) : jsstring * jsstring :=
  match s with
  | c :: r =>
      if is_digit c then let '(ds, rest) := take_digits r in (c :: ds, rest)
      else ([], s)
  | [] => ([], [])
  end.

(** Integer part: a lone zero, or a non-zero digit and more digits. *)
Definition lex_int (s : jsstring) : option (jsstring * jsstring) :=
  match s with
  | c :: r =>
      if c =? 48 then Some ([48], r)
      else if is_digit c then
        let '(ds, rest) := take_digits r in Some (c :: ds, rest)
      else None
  | [] => None
  end.

(** Optional fraction: a point needs at least one digit after it. *)
Definition lex_frac (s : jsstring) : option (jsstring * jsstring) :=
  match s with
  | c :: r =>
      if c =? 46 then
        match take_digits r with
        | ([], _) => None
        | (ds, rest) => Some (c :: ds, rest)
        end
      else Some ([], s)
  | [] => Some ([], s)
  end.

(** Optional exponent: [e] or [E], an optional sign, at least one digit. *)
Definition lex_exp (s : jsstring) : option (jsstring * jsstring) :=
  match s with
  | c :: r =>
      if (c =? 101) || (c =? 69) then
        let '(sign, r1) :=
          match r with
          | d :: r' => if (d =? 43) || (d =? 45) then ([d], r') else ([], r)
          | [] => ([], r)
          end in
        match take_digits r1 with
        | ([], _) => None
        | (ds, rest) => Some (c :: sign ++ ds, rest)
        end
      else Some ([], s)
  | [] => Some ([], s)
  end.

(** A number literal: its text and what follows it. *)
Definition lex_number (s : jsstring) : option (jsstring * jsstring) :=
  let '(sign, s1) :=
    match s with
    | c :: r => if c =? 45 then ([c], r) else ([], s)
    | [] => ([], s)
    end in
  match lex_int s1 with
  | Some (i, s2) =>
      match lex_frac s2 with
      | Some (f, s3) =>
          match lex_exp s3 with
          | Some (e, s4) => Some (sign ++ i ++ f ++ e, s4)
          | None => None
          end
      | None => None
      end
  | None => None
  end.

(** [strip_prefix p s]: what follows [p] when [s] starts with [p]. *)
Fixpoint strip_prefix (p s : jsstring) : option jsstring :=
  match p, s with
  | [], _ => Some s
  | a :: p', b :: s' => if a =? b then strip_prefix p' s' else None
  | _ :: _, [] => None
  end.

(** ** JSON.parse: values *)

Definition lit_null : jsstring := Eval cbv in str "null".
Definition lit_true : jsstring := Eval cbv in str "true".
Definition lit_false : jsstring := Eval cbv in str "false".

Definition parse_literal (lit : jsstring) (v : json) (s : jsstring)
  : option (json * jsstring) :=
  match strip_prefix lit s with
  | Some rest => Some (v, rest)
  | None => None
  end.

(** A parser reads a prefix of its input and returns what it read together
    with the unread rest. *)
Definition parser (A : Type) : Type := jsstring -> option (A * jsstring).

(** Recursive descent over the JSON grammar, one level at a time.  Each
    step takes the parsers it recurses into as arguments.

    One value, after optional white space. *)
Definition value_step (elements : parser (list json))
    (members : parser (list (jsstring * json))) : parser json :=
  fun s =>
    match skip_ws s with
    | [] => None
    | c :: r =>
        if c =? 110 then parse_literal lit_null JNull (c :: r)
        else if c =? 116 then parse_literal lit_true (JBool true) (c :: r)
        else if c =? 102 then parse_literal lit_false (JBool false) (c :: r)
        else if c =? 34 then
          match lex_string r with
          | Some (body, rest) => Some (JStr body, rest)
          | None => None
          end
        else if c =? 91 then
          match skip_ws r with
          | d :: r' =>
              if d =? 93 then Some (JArr [], r')
              else
                match elements r with
                | Some (vs, rest) => Some (JArr vs, rest)
                | None => None
                end
          | [] => None
          end
        else if c =? 123 then
          match skip_ws r with
          | d :: r' =>
              if d =? 125 then Some (JObj [], r')
              else
                match members r with
                | Some (ms, rest) => Some (JObj ms, rest)
                | None => None
                end
          | [] => None
          end
        else
          match lex_number (c :: r) with
          | Some (lexeme, rest) => Some (JNum lexeme, rest)
          | None => None
          end
    end.

(** The elements of a non-empty array, up to and including its closing
    bracket. *)
Definition elements_step (value : parser json) (elements : parser (list json))
  : parser (list json) :=
  fun s =>
    match value s with
    | Some (v, r) =>
        match skip_ws r with
        | c :: r' =>
            if c =? 44 then
              match elements r' with
              | Some (vs, rest) => Some (v :: vs, rest)
              | None => None
              end
            else if c =? 93 then Some ([v], r')
            else None
        | [] => None
        end
    | None => None
    end.

(** The members of a non-empty object, up to and including its closing
    brace. *)
Definition members_step (value : parser json)
    (members : parser (list (jsstring * json)))
  : parser (list (jsstring * json)) :=
  fun s =>
    match skip_ws s with
    | q :: r0 =>
        if q =? 34 then
          match lex_string r0 with
          | Some (key, r1) =>
              match skip_ws r1 with
              | colon :: r2 =>
                  if colon =? 58 then
                    match value r2 with
                    | Some (v, r3) =>
                        match skip_ws r3 with
                        | c :: r4 =>
                            if c =? 44 then
                              match members r4 with
                              | Some (ms, rest) => Some ((key, v) :: ms, rest)
                              | None => None
                              end
                            else if c =? 125 then Some ([(key, v)], r4)
                            else None
                        | [] => None
                        end
                    | None => None
                    end
                  else None
              | [] => None
              end
          | None => None
          end
        else None
    | [] => None
    end.

(** The three parsers, tied together.  The fuel bounds the depth of the
    mutual recursion only: [JSON_parse] below supplies more than any input
    uses (lemma [parse_value_fuel]). *)
Fixpoint parse_value (fuel : nat) : parser json :=
  match fuel with
  | O => fun _ => None
  | S fuel' => value_step (parse_elements fuel') (parse_members fuel')
  end

with parse_elements (fuel : nat) : parser (list json) :=
  match fuel with
  | O => fun _ => None
  | S fuel' => elements_step (parse_value fuel') (parse_elements fuel')
  end

with parse_members (fuel : nat) : parser (list (jsstring * json)) :=
  match fuel with
  | O => fun _ => None
  | S fuel' => members_step (parse_value fuel') (parse_members fuel')
  end.

(** A parser that always leaves less than it was given. *)
Definition consuming {A : Type} (p : parser A) : Prop :=
  forall s a rest, p s = Some (a, rest) -> (length rest < length s)%nat.

(** Two parsers that answer alike on every input shorter than [n]. *)
Definition agree_below {A : Type} (n : nat) (p q : parser A) : Prop :=
  forall s, (length s < n)%nat -> p s = q s.

(** [JSON.parse(text)]: one value, white space around it, nothing else.
    [None] is the [SyntaxError]. *)
Definition JSON_parse (text : jsstring) : option json :=
  match parse_value (2 * length text + 2) text with
  | Some (v, rest) =>
      match skip_ws rest with
      | [] => Some v
      | _ :: _ => None
      end
  | None => None
  end.

(** ** The engine's number conversions *)

(** The script never computes with numbers, but a number read back from
    storage can reach a string or boolean position.  How the engine prints
    or tests the number a literal denotes is taken as given. *)
Class Engine : Type := {
  (** [String(n)] *)
  Number_toString : jsstring -> jsstring;
  (** [JSON.stringify(n)] *)
  Number_toJSON : jsstring -> jsstring;
  (** [Boolean(n)] *)
  Number_toBoolean : jsstring -> bool
}.

Section Script.
Context `{Engine}.

(** ** Conversions *)

Definition lit_comma : jsstring := [44].
Definition lit_object_Object : jsstring := Eval cbv in str "[object Object]".

Definition key_toString : jsstring := Eval cbv in str "toString".

(** Whether a parsed object has a member of that name. *)
Definition has_member (name : jsstring) (ms : list (jsstring * json)) : bool :=
  existsb (fun kv => jsstring_eqb (fst kv) name) ms.

(** [String(j)]; [None] is a [TypeError].  An array joins its elements with
    commas, printing [null] elements as nothing.  An object is printed by
    its [toString] method: the inherited one gives [[object Object]], but a
    parsed object with a member called [toString] hides it behind a value
    that cannot be called, [valueOf] gives no primitive either, and the
    conversion throws. *)
Fixpoint ToString (j : json) : option jsstring :=
  match j with
  | JNull => Some lit_null
  | JBool true => Some lit_true
  | JBool false => Some lit_false
  | JNum n => Some (Number_toString n)
  | JStr s => Some s
  | JArr elems =>
      (fix join (l : list json) : option jsstring :=
         match l with
         | [] => Some []
         | x :: r =>
             match match x with JNull => Some [] | _ => ToString x end with
             | Some sx =>
                 match r with
                 | [] => Some sx
                 | _ :: _ =>
                     match join r with
                     | Some sr => Some (sx ++ lit_comma ++ sr)
                     | None => None
                     end
                 end
             | None => None
             end
         end) elems
  | JObj members =>
      if has_member key_toString members then None else Some lit_object_Object
  end.

(** [Boolean(j)] *)
Definition ToBoolean (j : json) : bool :=
  match j with
  | JNull => false
  | JBool b => b
  | JNum n => Number_toBoolean n
  | JStr s => negb (jsstring_eqb s [])
  | JArr _ | JObj _ => true
  end.

Definition truthy (v : value) : bool :=
  match v with
  | VUndefined => false
  | VEvent _ => true
  | VJson j => ToBoolean j
  end.

(** [v] strictly equals the empty string, the test of the validation. *)
Definition is_empty_string (v : value) : bool :=
  match v with
  | VJson (JStr s) => jsstring_eqb s []
  | _ => false
  end.

(** The string a [textContent] assignment stores: [null] and [undefined]
    give the empty string, an event object prints as its class tag, anything
    else is converted by [String]; [None] is the [TypeError] of a conversion
    that throws. *)
Definition textContent_of (v : value) : option jsstring :=
  match v with
  | VUndefined => Some []
  | VEvent tag => Some (str "[object " ++ tag ++ str "]")
  | VJson JNull => Some []
  | VJson j => ToString j
  end.

(** [obj.name] for a parsed object: the last member of that name. *)
Fixpoint get_member (name : jsstring) (ms : list (jsstring * json)) : value :=
  match ms with
  | [] => VUndefined
  | (k, v) :: rest =>
      match get_member name rest with
      | VUndefined => if jsstring_eqb k name then VJson v else VUndefined
      | found => found
      end
  end.

(** ** JSON.stringify *)

Fixpoint join_comma (parts : list jsstring) : jsstring :=
  match parts with
  | [] => []
  | [p] => p
  | p :: rest => p ++ lit_comma ++ join_comma rest
  end.

Fixpoint JSON_stringify (j : json) : jsstring :=
  match j with
  | JNull => lit_null
  | JBool true => lit_true
  | JBool false => lit_false
  | JNum n => Number_toJSON n
  | JStr s => QuoteJSONString s
  | JArr elems => [91] ++ join_comma (List.map JSON_stringify elems) ++ [93]
  | JObj members =>
      [123]
      ++ join_comma
           (List.map (fun kv => QuoteJSONString (fst kv) ++ [58] ++ JSON_stringify (snd kv))
              members)
      ++ [125]
  end.

(** ** The page *)

(** A task row: whether the [<li>] carries the class [completed], and the
    text of its [span.task-text]. *)
Record li_element : Type := {
  li_completed : bool;
  li_text : jsstring
}.

(** What the script reads and writes: the input field, the rows of
    [#task-list] in document order, whether [<body>] carries [dark-theme],
    [localStorage], and the alerts shown so far. *)
Record page : Type := {
  taskInput_value : jsstring;
  taskList : list li_element;
  body_dark : bool;
  localStorage : gmap jsstring jsstring;
  alerts : list jsstring
}.

Definition key_tasks : jsstring := Eval cbv in str "tasks".
Definition key_themePreference : jsstring := Eval cbv in str "themePreference".
Definition key_text : jsstring := Eval cbv in str "text".
Definition key_completed : jsstring := Eval cbv in str "completed".
Definition lit_dark : jsstring := Eval cbv in str "dark".
Definition lit_light : jsstring := Eval cbv in str "light".
Definition msg_empty_task : jsstring :=
  Eval cbv in str "Please write down a task before adding it!".

Definition getItem (k : jsstring) (s : page) : option jsstring :=
  localStorage s !! k.

Definition setItem (k v : jsstring) (s : page) : page :=
  {| taskInput_value := taskInput_value s;
     taskList := taskList s;
     body_dark := body_dark s;
     localStorage := <[k := v]> (localStorage s);
     alerts := alerts s |}.

Definition alert (msg : jsstring) (s : page) : page :=
  {| taskInput_value := taskInput_value s;
     taskList := taskList s;
     body_dark := body_dark s;
     localStorage := localStorage s;
     alerts := alerts s ++ [msg] |}.

Definition set_taskInput_value (v : jsstring) (s : page) : page :=
  {| taskInput_value := v;
     taskList := taskList s;
     body_dark := body_dark s;
     localStorage := localStorage s;
     alerts := alerts s |}.

Definition set_taskList (l : list li_element) (s : page) : page :=
  {| taskInput_value := taskInput_value s;
     taskList := l;
     body_dark := body_dark s;
     localStorage := localStorage s;
     alerts := alerts s |}.

Definition set_body_dark (b : bool) (s : page) : page :=
  {| taskInput_value := taskInput_value s;
     taskList := taskList s;
     body_dark := b;
     localStorage := localStorage s;
     alerts := alerts s |}.

(** ** The script's functions *)

(** The object [saveTasks] pushes for one row. *)
Definition task_object (li : li_element) : json :=
  JObj [(key_text, JStr (li_text li)); (key_completed, JBool (li_completed li))].

Definition saveTasks (s : page) : page :=
  let tasks := List.map task_object (taskList s) in
  setItem key_tasks (JSON_stringify (JArr tasks)) s.

(** How a call ends: it returns, or an exception escapes it. *)
Inductive error : Type := SyntaxError | TypeError.

Inductive outcome : Type :=
  | Returns (s : page)
  | Throws (e : error) (s : page).

(** The page a call ends with, returned or thrown. *)
Definition final_page (o : outcome) : page :=
  match o with
  | Returns s | Throws _ s => s
  end.

(** Default parameters: an argument that is [undefined] takes its default,
    any other value is used as passed. *)
Definition taskText_of (taskText_arg : value) (s : page) : value :=
  match taskText_arg with
  | VUndefined => VJson (JStr (trim (taskInput_value s)))
  | v => v
  end.

Definition isCompleted_of (isCompleted_arg : value) : value :=
  match isCompleted_arg with
  | VUndefined => VJson (JBool false)
  | v => v
  end.

(** [addTask(taskText = taskInput.value.trim(), isCompleted = false)].
    The assignment to [textContent] converts [taskText] to a string; when
    that conversion throws, the new [<li>] has not been appended yet and
    nothing has been saved, so the page is as it was. *)
Definition addTask (taskText_arg isCompleted_arg : value) (s : page) : outcome :=
  let taskText := taskText_of taskText_arg s in
  let isCompleted := isCompleted_of isCompleted_arg in
  if is_empty_string taskText then Returns (alert msg_empty_task s)
  else
    match textContent_of taskText with
    | None => Throws TypeError s
    | Some text =>
        let li := {| li_completed := truthy isCompleted; li_text := text |} in
        let s1 := set_taskList (taskList s ++ [li]) s in
        let s2 :=
          if negb (truthy isCompleted)
             && negb (jsstring_eqb (trim (taskInput_value s1)) [])
          then set_taskInput_value [] s1
          else s1 in
        Returns (saveTasks s2)
    end.

(** An element a click on the list can land on: the list itself, or the
    [i]-th row, its text span or its delete button. *)
Inductive element : Type :=
  | TaskListUl
  | Li (i : nat)
  | TaskTextSpan (i : nat)
  | DeleteButton (i : nat).

(** [el.closest('li')], as the position of the row found. *)
Definition closest_li (el : element) : option nat :=
  match el with
  | TaskListUl => None
  | Li i | TaskTextSpan i | DeleteButton i => Some i
  end.

(** [el.classList.contains('delete-button')] *)
Definition is_delete_button (el : element) : bool :=
  match el with
  | DeleteButton _ => true
  | _ => false
  end.

(** [li.classList.toggle('completed')] *)
Definition toggle_completed (li : li_element) : li_element :=
  {| li_completed := negb (li_completed li); li_text := li_text li |}.

Definition handleTaskActions (clickedElement : element) (s : page) : page :=
  match closest_li clickedElement with
  | None => s
  | Some i =>
      if is_delete_button clickedElement then
        saveTasks (set_taskList (delete i (taskList s)) s)
      else if negb (is_delete_button clickedElement) then
        saveTasks (set_taskList (alter toggle_completed i (taskList s)) s)
      else s
  end.

(** [task.name] inside the [forEach] callback; [None] is the [TypeError] of
    reading a property of [null]. *)
Definition get_property (task : json) (name : jsstring) : option value :=
  match task with
  | JNull => None
  | JObj ms => Some (get_member name ms)
  | _ => Some VUndefined
  end.

(** [tasks.forEach(task => addTask(task.text, task.completed))] *)
Fixpoint forEach_addTask (tasks : list json) (s : page) : outcome :=
  match tasks with
  | [] => Returns s
  | task :: rest =>
      match get_property task key_text, get_property task key_completed with
      | Some text, Some completed =>
          match addTask text completed s with
          | Returns s1 => forEach_addTask rest s1
          | Throws e s1 => Throws e s1
          end
      | _, _ => Throws TypeError s
      end
  end.

Definition loadTasks (s : page) : outcome :=
  match getItem key_tasks s with
  | Some savedTasks =>
      if negb (jsstring_eqb savedTasks []) then
        match JSON_parse savedTasks with
        | Some (JArr tasks) => forEach_addTask tasks s
        | Some _ => Throws TypeError s
        | None => Throws SyntaxError s
        end
      else Returns s
  | None => Returns s
  end.

Definition toggleTheme (s : page) : page :=
  let s1 := set_body_dark (negb (body_dark s)) s in
  let currentTheme := if body_dark s1 then lit_dark else lit_light in
  setItem key_themePreference currentTheme s1.

Definition loadTheme (s : page) : page :=
  match getItem key_themePreference s with
  | Some savedTheme =>
      if negb (jsstring_eqb savedTheme []) then
        if jsstring_eqb savedTheme lit_dark then set_body_dark true s
        else set_body_dark false s
      else s
  | None => s
  end.

(** ** The listeners *)

(** [DOMContentLoaded]: [loadTasks(); loadTheme();] *)
Definition on_DOMContentLoaded (s : page) : outcome :=
  match loadTasks s with
  | Returns s1 => Returns (loadTheme s1)
  | Throws e s1 => Throws e s1
  end.

(** [addButton.addEventListener('click', addTask)]: the listener is
    [addTask] itself, so it is called with the click event as its one
    argument.  The page goes on as the listener leaves it. *)
Definition on_addButton_click (event_tag : jsstring) (s : page) : page :=
  final_page (addTask (VEvent event_tag) VUndefined s).

Definition lit_Enter : jsstring := Eval cbv in str "Enter".

(** The [keypress] listener of the input: [Enter] calls [addTask()]. *)
Definition on_taskInput_keypress (key : jsstring) (s : page) : page :=
  if jsstring_eqb key lit_Enter
  then final_page (addTask VUndefined VUndefined s)
  else s.

(** ** Vocabulary of the statements *)

(** The value under [tasks] is the serialization of the rows on display. *)
Definition tasks_in_sync (s : page) : Prop :=
  getItem key_tasks s
  = Some (JSON_stringify (JArr (List.map task_object (taskList s)))).

(** Only white space, or nothing at all. *)
Definition blank (text : jsstring) : Prop := Forall (fun c => is_js_space c = true) text.

Definition bool_literal (b : bool) : jsstring := if b then lit_true else lit_false.

End Script.

(** ** Sample pages *)

(** Whether the digits before any exponent include a non-zero one. *)
Fixpoint mantissa_nonzero (lexeme : jsstring) : bool :=
  match lexeme with
  | [] => false
  | c :: r =>
      if (c =? 101) || (c =? 69) then false
      else ((49 <=? c) && (c <=? 57)) || mantissa_nonzero r
  end.

(** A sample engine.  It prints a number as the literal it was read from and
    takes it for true when its mantissa is not zero, which is what engines
    do for literals in shortest form such as [7] or [2.5].  The sample pages
    below hold no numbers. *)
Definition literal_engine : Engine :=
  {| Number_toString := fun lexeme => lexeme;
     Number_toJSON := fun lexeme => lexeme;
     Number_toBoolean := mantissa_nonzero |}.

(** The page as first opened: nothing typed, no rows, light, nothing stored. *)
Definition first_run : page :=
  {| taskInput_value := [];
     taskList := [];
     body_dark := false;
     localStorage := ∅;
     alerts := [] |}.

Definition PointerEvent : jsstring := Eval cbv in str "PointerEvent".

Definition row (text : String.string) (completed : bool) : li_element :=
  {| li_completed := completed; li_text := str text |}.

(** A field holding three spaces. *)
Definition blank_field : page := set_taskInput_value (str "   ") first_run.

(** A field holding a task to add. *)
Definition typed_Buy_milk : page := set_taskInput_value (str "Buy milk") first_run.

Definition two_rows : page :=
  set_taskList [row "Buy milk" true; row "Walk dog" false] first_run.

(** The page after a restart: no rows yet, the store as it was left. *)
Definition restarted (typed : jsstring) (store : gmap jsstring jsstring) : page :=
  {| taskInput_value := typed;
     taskList := [];
     body_dark := false;
     localStorage := store;
     alerts := [] |}.

Definition store_of_two_rows : gmap jsstring jsstring :=
  localStorage (@saveTasks literal_engine two_rows).

(** One open task in the store, and a draft already in the field when the
    script starts. *)
Definition restarted_with_draft : page :=
  restarted (str "draft")
    (localStorage
       (@saveTasks literal_engine (set_taskList [row "Walk dog" false] first_run))).

(** A saved list that lost its closing bracket. *)
Definition truncated_payload : jsstring :=
  removelast
    (@JSON_stringify literal_engine (JArr [task_object (row "Buy milk" false)])).

Definition truncated_store : page :=
  restarted [] (<[key_tasks := truncated_payload]> ∅).

(** Typing a text into the field and pressing [Enter]. *)
Definition type_and_Enter `{Engine} (text : String.string) (s : page) : page :=
  on_taskInput_keypress lit_Enter (set_taskInput_value (str text) s).

(** ** A session *)

(** What the user can do to the page.  Editing the field is the browser's
    part: it replaces [taskInput.value].  The other four reach the listeners
    the script registers. *)
Inductive ui_event : Type :=
  | Edit_field (text : jsstring)
  | Press_key (key : jsstring)
  | Click_addButton (event_tag : jsstring)
  | Click_taskList (target : element)
  | Click_themeToggle.

Definition dispatch `{Engine} (e : ui_event) (s : page) : page :=
  match e with
  | Edit_field text => set_taskInput_value text s
  | Press_key key => on_taskInput_keypress key s
  | Click_addButton event_tag => on_addButton_click event_tag s
  | Click_taskList target => handleTaskActions target s
  | Click_themeToggle => toggleTheme s
  end.

(** The events of a session, handled one after the other. *)
Definition session `{Engine} (events : list ui_event) (s : page) : page :=
  fold_left (fun s' e => dispatch e s') events s.

(** The strings an event carries are sequences of 16-bit code units. *)
Definition wf_event (e : ui_event) : Prop :=
  match e with
  | Edit_field text => wf_string text
  | Click_addButton event_tag => wf_string event_tag
  | _ => True
  end.

(** Every row has a text, made of 16-bit code units. *)
Definition rows_named (s : page) : Prop :=
  Forall (fun r => li_text r <> [] /\ wf_string (li_text r)) (taskList s).

(** The store follows the rows, or nothing was ever stored and there are no
    rows. *)
Definition tasks_settled `{Engine} (s : page) : Prop :=
  tasks_in_sync s \/ (taskList s = [] /\ getItem key_tasks s = None).

Definition theme_name (dark : bool) : jsstring :=
  if dark then lit_dark else lit_light.

(** The stored preference names the mode on display, or nothing was ever
    stored and the page is light. *)
Definition theme_settled (s : page) : Prop :=
  getItem key_themePreference s = Some (theme_name (body_dark s))
  \/ (getItem key_themePreference s = None /\ body_dark s = false).

(** A row whose text is not empty. *)
Definition has_text (r : li_element) : bool := negb (jsstring_eqb (li_text r) []).

(** A page as a session leaves it: the field and the rows hold well-formed
    strings, no row is without text, and the store has followed both the
    rows and the theme. *)
Definition settled `{Engine} (s : page) : Prop :=
  wf_string (taskInput_value s)
  /\ rows_named s
  /\ tasks_settled s
  /\ theme_settled s.

(** ** More sample pages *)

(** Two tasks typed and entered, the first ticked, the theme switched, and a
    click on the add button. *)
Definition sample_session : list ui_event :=
  [Edit_field (str "Buy milk"); Press_key lit_Enter;
   Edit_field (str "  Walk dog "); Press_key lit_Enter;
   Click_taskList (TaskTextSpan 0); Click_themeToggle;
   Click_addButton PointerEvent].

(** Three saved rows, the middle one without text. *)
Definition rows_with_gap : list li_element :=
  [row "Buy milk" true; row "" false; row "Walk dog" false].

Definition store_with_gap : gmap jsstring jsstring :=
  localStorage (@saveTasks literal_engine (set_taskList rows_with_gap first_run)).

(** A stored array with [null] between two task objects. *)
Definition payload_with_null : jsstring :=
  @JSON_stringify literal_engine
    (JArr [task_object (row "Buy milk" false); JNull;
           task_object (row "Walk dog" false)]).

(** A stored array holding one empty object. *)
Definition payload_bare_object : jsstring := [91; 123; 125; 93].

(** A text that cannot be printed: an object whose [toString] member is the
    number one. *)
Definition unprintable_text : json := JObj [(key_toString, JNum [49])].

(** A stored array whose second entry has such a text, between two task
    objects. *)
Definition payload_unprintable : jsstring :=
  @JSON_stringify literal_engine
    (JArr [task_object (row "Buy milk" false);
           JObj [(key_text, unprintable_text)];
           task_object (row "Walk dog" false)]).

(** That array, next to a stored [dark] preference. *)
Definition unprintable_store_dark : page :=
  restarted []
    (<[key_themePreference := lit_dark]> (<[key_tasks := payload_unprintable]> ∅)).

(** The truncated list of before, next to a stored [dark] preference. *)
Definition truncated_store_dark : page :=
  restarted []
    (<[key_themePreference := lit_dark]> (<[key_tasks := truncated_payload]> ∅)).

(** * Proofs *)

(** ** String literals survive quoting and lexing *)

Lemma hex_val_hex_digit (n : Z) : 0 <= n < 16 -> hex_val (hex_digit n) = Some n.
Proof.
  intros Hn. unfold hex_val, hex_digit, is_digit.
  destruct (n <? 10) eqn:E.
  - apply Z.ltb_lt in E.
    replace ((48 <=? 48 + n) && (48 + n <=? 57)) with true
      by (symmetry; apply andb_true_iff; split; apply Z.leb_le; lia).
    f_equal. lia.
  - apply Z.ltb_ge in E.
    replace ((48 <=? 87 + n) && (87 + n <=? 57)) with false
      by (symmetry; apply andb_false_iff; right; apply Z.leb_gt; lia).
    replace ((97 <=? 87 + n) && (87 + n <=? 102)) with true
      by (symmetry; apply andb_true_iff; split; apply Z.leb_le; lia).
    f_equal. lia.
Qed.

Lemma hex4_unicode_escape (c : Z) :
  code_unit c ->
  hex4 (hex_digit (c / 4096)) (hex_digit ((c / 256) mod 16))
       (hex_digit ((c / 16) mod 16)) (hex_digit (c mod 16)) = Some c.
Proof.
  unfold code_unit. intros Hc. unfold hex4.
  rewrite !hex_val_hex_digit by (Z.to_euclidean_division_equations; lia).
  f_equal. Z.to_euclidean_division_equations. lia.
Qed.

Lemma lex_string_unicode_escape (c : Z) (tail : jsstring) :
  code_unit c ->
  lex_string (unicode_escape c ++ tail) = cons_unit c (lex_string tail).
Proof.
  intros Hc. unfold unicode_escape. cbn [app lex_string].
  change (92 =? 34) with false. change (92 =? 92) with true.
  change (117 =? 117) with true. cbv iota.
  now rewrite hex4_unicode_escape.
Qed.

(** A code unit that needs no escape is read back as itself. *)
Lemma lex_string_plain (c : Z) (tail : jsstring) :
  32 <= c -> c <> 34 -> c <> 92 ->
  lex_string (c :: tail) = cons_unit c (lex_string tail).
Proof.
  intros H32 H34 H92. cbn [lex_string].
  destruct (Z.eqb_spec c 34); [lia|].
  destruct (Z.eqb_spec c 92); [lia|].
  destruct (Z.ltb_spec c 32); [lia|]. reflexivity.
Qed.

Lemma lex_string_quote_unit (c : Z) (tail : jsstring) :
  code_unit c ->
  lex_string (quote_unit c ++ tail) = cons_unit c (lex_string tail).
Proof.
  intros Hc. unfold quote_unit.
  repeat match goal with
  | |- context [if ?x =? ?k then _ else _] =>
      destruct (Z.eqb_spec x k); [subst; reflexivity|]
  end.
  destruct ((c <? 32) || is_leading_surrogate c || is_trailing_surrogate c) eqn:E.
  - now apply lex_string_unicode_escape.
  - apply orb_false_iff in E as [E _]. apply orb_false_iff in E as [E _].
    apply Z.ltb_ge in E. now apply lex_string_plain.
Qed.

Lemma surrogate_plain (c : Z) :
  is_leading_surrogate c || is_trailing_surrogate c = true ->
  32 <= c /\ c <> 34 /\ c <> 92.
Proof.
  unfold is_leading_surrogate, is_trailing_surrogate. lia.
Qed.

(** Induction over a list two elements at a time. *)
Lemma list_pair_ind {A : Type} (P : list A -> Prop) :
  P [] ->
  (forall a, P [a]) ->
  (forall a b l, P l -> P (b :: l) -> P (a :: b :: l)) ->
  forall l, P l.
Proof.
  intros Hnil Hone Hstep l.
  assert (Hboth : P l /\ forall a, P (a :: l)).
  { induction l as [|b l [IH1 IH2]]; split; auto. }
  apply Hboth.
Qed.

Lemma lex_string_quote_chars (s : jsstring) :
  wf_string s ->
  forall rest, lex_string (quote_chars s ++ 34 :: rest) = Some (s, rest).
Proof.
  induction s as [|c|c d r IHr IHdr] using list_pair_ind; intros Hwf rest.
  - reflexivity.
  - apply Forall_cons_1 in Hwf as [Hc _].
    cbn [quote_chars]. rewrite lex_string_quote_unit by assumption.
    reflexivity.
  - apply Forall_cons_1 in Hwf as [Hc Hwf].
    pose proof Hwf as Hwf'. apply Forall_cons_1 in Hwf' as [Hd Hr].
    change (quote_chars (c :: d :: r)) with
      (if is_leading_surrogate c && is_trailing_surrogate d
       then c :: d :: quote_chars r
       else quote_unit c ++ quote_chars (d :: r)).
    destruct (is_leading_surrogate c && is_trailing_surrogate d) eqn:E.
    + apply andb_true_iff in E as [Ec Ed].
      destruct (surrogate_plain c) as (? & ? & ?); [now rewrite Ec|].
      destruct (surrogate_plain d) as (? & ? & ?); [rewrite Ed; apply orb_true_r|].
      cbn [app]. rewrite !lex_string_plain by assumption.
      now rewrite IHr.
    + rewrite <- app_assoc, lex_string_quote_unit by assumption.
      now rewrite IHdr.
Qed.

(** ** The parser reads forward *)

Lemma skip_ws_length (s : jsstring) : (length (skip_ws s) <= length s)%nat.
Proof.
  induction s as [|c s IH]; cbn [skip_ws length]; [lia|].
  destruct (is_json_ws c); cbn [length]; lia.
Qed.

Lemma skip_ws_cons_length (s r : jsstring) (c : Z) :
  skip_ws s = c :: r -> (length r < length s)%nat.
Proof.
  intros Hs. pose proof (skip_ws_length s) as Hlen.
  rewrite Hs in Hlen. cbn [length] in Hlen. lia.
Qed.

Lemma cons_unit_length (c : Z) (k : option (jsstring * jsstring))
    (body rest : jsstring) (n : nat) :
  cons_unit c k = Some (body, rest) ->
  (forall b r, k = Some (b, r) -> (length r < n)%nat) ->
  (length rest < n)%nat.
Proof.
  destruct k as [[b r]|]; [|discriminate].
  cbn [cons_unit]. intros [= <- <-] Hk. now apply (Hk b).
Qed.

Lemma lex_string_length (s body rest : jsstring) :
  lex_string s = Some (body, rest) -> (length rest < length s)%nat.
Proof.
  remember (length s) as n eqn:Hn.
  assert (Hle : (length s <= n)%nat) by lia. clear Hn.
  revert s body rest Hle.
  induction n as [|n IH]; intros s body rest Hle Hlex.
  - destruct s; [discriminate Hlex|cbn [length] in Hle; lia].
  - destruct s as [|c r]; [discriminate Hlex|]. cbn [length] in Hle |- *.
    cbn [lex_string] in Hlex.
    destruct (c =? 34); [injection Hlex as <- <-; lia|].
    destruct (c =? 92).
    + destruct r as [|e r1]; [discriminate Hlex|].
      destruct (e =? 117).
      * destruct r1 as [|h1 [|h2 [|h3 [|h4 r2]]]]; try discriminate Hlex.
        destruct (hex4 h1 h2 h3 h4); [|discriminate Hlex].
        eapply cons_unit_length in Hlex; [exact Hlex|].
        intros b' r' Hk. apply (IH r2) in Hk; cbn [length] in *; lia.
      * destruct (simple_escape e); [|discriminate Hlex].
        eapply cons_unit_length in Hlex; [exact Hlex|].
        intros b' r' Hk. apply (IH r1) in Hk; cbn [length] in *; lia.
    + destruct (c <? 32); [discriminate Hlex|].
      eapply cons_unit_length in Hlex; [exact Hlex|].
      intros b' r' Hk. apply (IH r) in Hk; cbn [length] in *; lia.
Qed.

Lemma take_digits_length (s : jsstring) :
  (length (snd (take_digits s)) <= length s)%nat.
Proof.
  induction s as [|c s IH]; cbn [take_digits]; [cbn; lia|].
  destruct (is_digit c); [|cbn; lia].
  destruct (take_digits s) as [ds rest]. cbn [snd length] in *. lia.
Qed.

Lemma lex_int_length (s lexeme rest : jsstring) :
  lex_int s = Some (lexeme, rest) -> (length rest < length s)%nat.
Proof.
  destruct s as [|c r]; [discriminate|]. cbn [lex_int length].
  destruct (c =? 48); [intros [= <- <-]; lia|].
  destruct (is_digit c); [|discriminate].
  pose proof (take_digits_length r) as Hlen.
  destruct (take_digits r) as [ds rest']. intros [= <- <-].
  cbn [snd] in Hlen. lia.
Qed.

Lemma lex_frac_length (s lexeme rest : jsstring) :
  lex_frac s = Some (lexeme, rest) -> (length rest <= length s)%nat.
Proof.
  destruct s as [|c r]; [intros [= <- <-]; lia|]. cbn [lex_frac length].
  destruct (c =? 46); [|intros [= <- <-]; cbn [length]; lia].
  pose proof (take_digits_length r) as Hlen.
  destruct (take_digits r) as [[|d ds] rest']; [discriminate|].
  intros [= <- <-]. cbn [snd] in Hlen. lia.
Qed.

Lemma lex_exp_length (s lexeme rest : jsstring) :
  lex_exp s = Some (lexeme, rest) -> (length rest <= length s)%nat.
Proof.
  destruct s as [|c r]; [intros [= <- <-]; lia|]. cbn [lex_exp length].
  destruct ((c =? 101) || (c =? 69)); [|intros [= <- <-]; cbn [length]; lia].
  destruct r as [|d r'].
  - cbn [take_digits]. discriminate.
  - destruct ((d =? 43) || (d =? 45)).
    + pose proof (take_digits_length r') as Hlen.
      destruct (take_digits r') as [[|x ds] rest']; [discriminate|].
      intros [= <- <-]. cbn [snd length] in *. lia.
    + pose proof (take_digits_length (d :: r')) as Hlen.
      destruct (take_digits (d :: r')) as [[|x ds] rest']; [discriminate|].
      intros [= <- <-]. cbn [snd length] in *. lia.
Qed.

Lemma lex_number_length (s lexeme rest : jsstring) :
  lex_number s = Some (lexeme, rest) -> (length rest < length s)%nat.
Proof.
  unfold lex_number.
  assert (Hsign : forall sign s1,
    (length s1 <= length s)%nat ->
    match lex_int s1 with
    | Some (i, s2) =>
        match lex_frac s2 with
        | Some (f, s3) =>
            match lex_exp s3 with
            | Some (e, s4) => Some (sign ++ i ++ f ++ e, s4)
            | None => None
            end
        | None => None
        end
    | None => None
    end = Some (lexeme, rest) -> (length rest < length s)%nat).
  { intros sign s1 Hs1 Hlex.
    destruct (lex_int s1) as [[i s2]|] eqn:Hi; [|discriminate Hlex].
    destruct (lex_frac s2) as [[f s3]|] eqn:Hf; [|discriminate Hlex].
    destruct (lex_exp s3) as [[e s4]|] eqn:He; [|discriminate Hlex].
    injection Hlex as _ <-.
    apply lex_int_length in Hi. apply lex_frac_length in Hf.
    apply lex_exp_length in He. lia. }
  destruct s as [|c r]; [apply Hsign; lia|].
  destruct (c =? 45); apply Hsign; cbn [length]; lia.
Qed.

Lemma strip_prefix_length (p s rest : jsstring) :
  strip_prefix p s = Some rest -> (length rest + length p = length s)%nat.
Proof.
  revert s. induction p as [|a p IH]; intros s; cbn [strip_prefix length].
  - intros [= <-]. lia.
  - destruct s as [|b s]; [discriminate|]. destruct (a =? b); [|discriminate].
    intros Hs. apply IH in Hs. cbn [length]. lia.
Qed.

Lemma parse_literal_length (lit : jsstring) (v w : json) (s rest : jsstring) :
  lit <> [] ->
  parse_literal lit v s = Some (w, rest) -> (length rest < length s)%nat.
Proof.
  intros Hlit. unfold parse_literal.
  destruct (strip_prefix lit s) as [r|] eqn:Hs; [|discriminate].
  intros [= _ <-]. apply strip_prefix_length in Hs.
  destruct lit; [contradiction|]. cbn [length] in Hs. lia.
Qed.

Lemma value_step_consuming (elements : parser (list json))
    (members : parser (list (jsstring * json))) :
  consuming elements -> consuming members ->
  consuming (value_step elements members).
Proof.
  intros He Hm s v rest. unfold value_step.
  destruct (skip_ws s) as [|c r] eqn:Hs; [discriminate|].
  apply skip_ws_cons_length in Hs.
  assert (Hlit : forall lit w, lit <> [] ->
            parse_literal lit w (c :: r) = Some (v, rest) ->
            (length rest < length s)%nat).
  { intros lit w Hne Hp. apply parse_literal_length in Hp; [|exact Hne].
    cbn [length] in Hp. lia. }
  destruct (c =? 110); [now apply Hlit|].
  destruct (c =? 116); [now apply Hlit|].
  destruct (c =? 102); [now apply Hlit|].
  destruct (c =? 34).
  { destruct (lex_string r) as [[body rest']|] eqn:Hl; [|discriminate].
    intros [= _ <-]. apply lex_string_length in Hl. lia. }
  destruct (c =? 91).
  { destruct (skip_ws r) as [|d r'] eqn:Hr; [discriminate|].
    apply skip_ws_cons_length in Hr.
    destruct (d =? 93); [intros [= _ <-]; lia|].
    destruct (elements r) as [[vs rest']|] eqn:Hel; [|discriminate].
    intros [= _ <-]. apply He in Hel. lia. }
  destruct (c =? 123).
  { destruct (skip_ws r) as [|d r'] eqn:Hr; [discriminate|].
    apply skip_ws_cons_length in Hr.
    destruct (d =? 125); [intros [= _ <-]; lia|].
    destruct (members r) as [[ms rest']|] eqn:Hmem; [|discriminate].
    intros [= _ <-]. apply Hm in Hmem. lia. }
  destruct (lex_number (c :: r)) as [[lexeme rest']|] eqn:Hn; [|discriminate].
  intros [= _ <-]. apply lex_number_length in Hn. cbn [length] in Hn. lia.
Qed.

Lemma elements_step_consuming (value : parser json)
    (elements : parser (list json)) :
  consuming value -> consuming elements ->
  consuming (elements_step value elements).
Proof.
  intros Hv He s vs rest. unfold elements_step.
  destruct (value s) as [[v r]|] eqn:Hval; [|discriminate].
  apply Hv in Hval.
  destruct (skip_ws r) as [|c r'] eqn:Hr; [discriminate|].
  apply skip_ws_cons_length in Hr.
  destruct (c =? 44).
  - destruct (elements r') as [[vs' rest']|] eqn:Hel; [|discriminate].
    intros [= _ <-]. apply He in Hel. lia.
  - destruct (c =? 93); [|discriminate]. intros [= _ <-]. lia.
Qed.

Lemma members_step_consuming (value : parser json)
    (members : parser (list (jsstring * json))) :
  consuming value -> consuming members ->
  consuming (members_step value members).
Proof.
  intros Hv Hm s ms rest. unfold members_step.
  destruct (skip_ws s) as [|q r0] eqn:Hs; [discriminate|].
  apply skip_ws_cons_length in Hs.
  destruct (q =? 34); [|discriminate].
  destruct (lex_string r0) as [[key r1]|] eqn:Hkey; [|discriminate].
  apply lex_string_length in Hkey.
  destruct (skip_ws r1) as [|colon r2] eqn:Hr1; [discriminate|].
  apply skip_ws_cons_length in Hr1.
  destruct (colon =? 58); [|discriminate].
  destruct (value r2) as [[v r3]|] eqn:Hval; [|discriminate].
  apply Hv in Hval.
  destruct (skip_ws r3) as [|c r4] eqn:Hr3; [discriminate|].
  apply skip_ws_cons_length in Hr3.
  destruct (c =? 44).
  - destruct (members r4) as [[ms' rest']|] eqn:Hmem; [|discriminate].
    intros [= _ <-]. apply Hm in Hmem. lia.
  - destruct (c =? 125); [|discriminate]. intros [= _ <-]. lia.
Qed.

Lemma parse_consuming (fuel : nat) :
  consuming (parse_value fuel)
  /\ consuming (parse_elements fuel)
  /\ consuming (parse_members fuel).
Proof.
  induction fuel as [|fuel (IHv & IHe & IHm)].
  - repeat split; intros s a rest; discriminate.
  - cbn [parse_value parse_elements parse_members].
    auto using value_step_consuming, elements_step_consuming,
      members_step_consuming.
Qed.

(** ** More fuel never changes what the parser answers *)

Lemma value_step_agree (elements elements' : parser (list json))
    (members members' : parser (list (jsstring * json))) (s : jsstring) :
  agree_below (length s) elements elements' ->
  agree_below (length s) members members' ->
  value_step elements members s = value_step elements' members' s.
Proof.
  intros He Hm. unfold value_step.
  destruct (skip_ws s) as [|c r] eqn:Hs; [reflexivity|].
  apply skip_ws_cons_length in Hs.
  rewrite (He r Hs), (Hm r Hs). reflexivity.
Qed.

Lemma elements_step_agree (value value' : parser json)
    (elements elements' : parser (list json)) (s : jsstring) :
  value s = value' s ->
  consuming value ->
  agree_below (length s) elements elements' ->
  elements_step value elements s = elements_step value' elements' s.
Proof.
  intros Hv Hcons He. unfold elements_step. rewrite <- Hv.
  destruct (value s) as [[v r]|] eqn:Hval; [|reflexivity].
  apply Hcons in Hval.
  destruct (skip_ws r) as [|c r'] eqn:Hr; [reflexivity|].
  apply skip_ws_cons_length in Hr.
  rewrite (He r') by lia. reflexivity.
Qed.

Lemma members_step_agree (value value' : parser json)
    (members members' : parser (list (jsstring * json))) (s : jsstring) :
  agree_below (length s) value value' ->
  consuming value ->
  agree_below (length s) members members' ->
  members_step value members s = members_step value' members' s.
Proof.
  intros Hv Hcons Hm. unfold members_step.
  destruct (skip_ws s) as [|q r0] eqn:Hs; [reflexivity|].
  apply skip_ws_cons_length in Hs.
  destruct (q =? 34); [|reflexivity].
  destruct (lex_string r0) as [[key r1]|] eqn:Hkey; [|reflexivity].
  apply lex_string_length in Hkey.
  destruct (skip_ws r1) as [|colon r2] eqn:Hr1; [reflexivity|].
  apply skip_ws_cons_length in Hr1.
  destruct (colon =? 58); [|reflexivity].
  rewrite <- (Hv r2) by lia.
  destruct (value r2) as [[v r3]|] eqn:Hval; [|reflexivity].
  apply Hcons in Hval.
  destruct (skip_ws r3) as [|c r4] eqn:Hr3; [reflexivity|].
  apply skip_ws_cons_length in Hr3.
  rewrite (Hm r4) by lia. reflexivity.
Qed.

(** Fuel beyond twice the length of the input (plus one for a value, plus
    two for elements and members) is never reached. *)
Lemma parse_fuel_stable (n : nat) :
  forall s, length s = n ->
  (forall f f', (2 * length s + 1 <= f)%nat -> (2 * length s + 1 <= f')%nat ->
     parse_value f s = parse_value f' s)
  /\ (forall f f', (2 * length s + 2 <= f)%nat -> (2 * length s + 2 <= f')%nat ->
     parse_elements f s = parse_elements f' s)
  /\ (forall f f', (2 * length s + 2 <= f)%nat -> (2 * length s + 2 <= f')%nat ->
     parse_members f s = parse_members f' s).
Proof.
  induction n as [n IH] using lt_wf_ind. intros s Hn. subst n.
  assert (Hvalue : forall f f',
            (2 * length s + 1 <= f)%nat -> (2 * length s + 1 <= f')%nat ->
            parse_value f s = parse_value f' s).
  { intros [|f] [|f'] Hf Hf'; try lia. cbn [parse_value].
    apply value_step_agree; intros r Hr;
      destruct (IH (length r) Hr r eq_refl) as (_ & He & Hm);
      [apply He | apply Hm]; lia. }
  split; [exact Hvalue|]. split.
  - intros [|f] [|f'] Hf Hf'; try lia. cbn [parse_elements].
    apply elements_step_agree.
    + apply Hvalue; lia.
    + apply parse_consuming.
    + intros r Hr. destruct (IH (length r) Hr r eq_refl) as (_ & He & _).
      apply He; lia.
  - intros [|f] [|f'] Hf Hf'; try lia. cbn [parse_members].
    apply members_step_agree.
    + intros r Hr. destruct (IH (length r) Hr r eq_refl) as (Hv & _ & _).
      apply Hv; lia.
    + apply parse_consuming.
    + intros r Hr. destruct (IH (length r) Hr r eq_refl) as (_ & _ & Hm).
      apply Hm; lia.
Qed.

(** The fuel [JSON_parse] supplies is enough: with any larger amount the
    answer, a value or a syntax error, is the same. *)
Lemma parse_value_fuel (text : jsstring) (fuel : nat) :
  (2 * length text + 2 <= fuel)%nat ->
  parse_value fuel text = parse_value (2 * length text + 2) text.
Proof.
  intros Hfuel.
  destruct (parse_fuel_stable (length text) text eq_refl) as (Hv & _).
  apply Hv; lia.
Qed.

(** ** Parsing what was serialized *)

Section RoundTrip.
Context `{Engine}.

Lemma JSON_stringify_task_object (li : li_element) :
  JSON_stringify (task_object li) =
  [123] ++ QuoteJSONString key_text ++ [58] ++ QuoteJSONString (li_text li)
  ++ [44] ++ QuoteJSONString key_completed ++ [58]
  ++ bool_literal (li_completed li) ++ [125].
Proof.
  unfold task_object. cbn [JSON_stringify List.map join_comma fst snd].
  destruct (li_completed li); cbn [bool_literal];
    rewrite <- ?app_assoc; reflexivity.
Qed.

Lemma parse_value_string (fuel : nat) (body rest : jsstring) :
  wf_string body ->
  parse_value (S fuel) (QuoteJSONString body ++ rest) = Some (JStr body, rest).
Proof.
  intros Hwf. unfold QuoteJSONString. cbn [parse_value]. unfold value_step. cbn [app skip_ws].
  change (is_json_ws 34) with false. cbv iota.
  change (34 =? 110) with false. change (34 =? 116) with false.
  change (34 =? 102) with false. change (34 =? 34) with true. cbv iota.
  rewrite <- app_assoc. cbn [app].
  now rewrite lex_string_quote_chars.
Qed.

Lemma parse_value_bool (fuel : nat) (b : bool) (rest : jsstring) :
  parse_value (S fuel) (bool_literal b ++ rest) = Some (JBool b, rest).
Proof.
  destruct b; reflexivity.
Qed.

(** One member, [key:value], followed by a comma or the closing brace. *)
Lemma parse_members_step (fuel : nat) (key tail : jsstring) :
  wf_string key ->
  parse_members (S fuel) (QuoteJSONString key ++ 58 :: tail) =
  match parse_value fuel tail with
  | Some (v, r3) =>
      match skip_ws r3 with
      | c :: r4 =>
          if c =? 44 then
            match parse_members fuel r4 with
            | Some (ms, rest) => Some ((key, v) :: ms, rest)
            | None => None
            end
          else if c =? 125 then Some ([(key, v)], r4)
          else None
      | [] => None
      end
  | None => None
  end.
Proof.
  intros Hwf. unfold QuoteJSONString. cbn [parse_members]. unfold members_step. cbn [app skip_ws].
  change (is_json_ws 34) with false. cbv iota.
  change (34 =? 34) with true. cbv iota.
  rewrite <- app_assoc. cbn [app].
  rewrite lex_string_quote_chars by assumption.
  cbn [skip_ws]. change (is_json_ws 58) with false. cbv iota.
  change (58 =? 58) with true. cbv iota. reflexivity.
Qed.

Lemma wf_string_key_text : wf_string key_text.
Proof. repeat constructor; unfold code_unit; lia. Qed.

Lemma wf_string_key_completed : wf_string key_completed.
Proof. repeat constructor; unfold code_unit; lia. Qed.

Lemma parse_value_task_object (fuel : nat) (li : li_element) (rest : jsstring) :
  (4 <= fuel)%nat ->
  wf_string (li_text li) ->
  parse_value fuel (JSON_stringify (task_object li) ++ rest)
  = Some (task_object li, rest).
Proof.
  intros Hfuel Hwf.
  destruct fuel as [|[|[|[|f]]]]; try lia. clear Hfuel.
  rewrite JSON_stringify_task_object.
  rewrite <- !app_assoc.
  change ([123] ++ ?x) with (123 :: x).
  cbn [parse_value]. unfold value_step at 1. cbn [skip_ws]. change (is_json_ws 123) with false. cbv iota.
  change (123 =? 110) with false. change (123 =? 116) with false.
  change (123 =? 102) with false. change (123 =? 34) with false.
  change (123 =? 91) with false. change (123 =? 123) with true. cbv iota.
  change (skip_ws (QuoteJSONString key_text ++ ?x))
    with (QuoteJSONString key_text ++ x).
  change (QuoteJSONString key_text ++ ?x)
    with (34 :: (quote_chars key_text ++ [34]) ++ x) at 1.
  cbv iota. change (34 =? 125) with false. cbv iota.
  change ([58] ++ ?x) with (58 :: x).
  rewrite parse_members_step by apply wf_string_key_text.
  rewrite parse_value_string by assumption.
  change ([44] ++ ?x) with (44 :: x).
  cbn [skip_ws]. change (is_json_ws 44) with false. cbv iota.
  change (44 =? 44) with true. cbv iota.
  change ([58] ++ ?x) with (58 :: x).
  rewrite parse_members_step by apply wf_string_key_completed.
  rewrite parse_value_bool.
  change ([125] ++ ?x) with (125 :: x).
  cbn [skip_ws]. change (is_json_ws 125) with false. cbv iota.
  change (125 =? 44) with false. change (125 =? 125) with true. cbv iota.
  destruct li as [c t]. reflexivity.
Qed.

(** The serialized rows of a non-empty list, up to the closing bracket. *)
Lemma parse_elements_task_objects (rows : list li_element) :
  forall (li : li_element) (fuel : nat) (rest : jsstring),
  (length rows + 5 <= fuel)%nat ->
  Forall (fun r => wf_string (li_text r)) (li :: rows) ->
  parse_elements fuel
    (join_comma (List.map JSON_stringify (List.map task_object (li :: rows)))
     ++ 93 :: rest)
  = Some (List.map task_object (li :: rows), rest).
Proof.
  induction rows as [|li' rows IH]; intros li fuel rest Hfuel Hwf;
    apply Forall_cons_1 in Hwf as [Hli Hwf];
    (destruct fuel as [|fuel]; [cbn in Hfuel; lia|]).
  - cbn [List.map join_comma parse_elements]. unfold elements_step.
    rewrite parse_value_task_object by (assumption || cbn in Hfuel; lia).
    reflexivity.
  - cbn [length] in Hfuel.
    change (join_comma (List.map JSON_stringify (List.map task_object (li :: li' :: rows))))
      with (JSON_stringify (task_object li) ++ lit_comma
            ++ join_comma (List.map JSON_stringify (List.map task_object (li' :: rows)))).
    rewrite <- !app_assoc. cbn [parse_elements]. unfold elements_step at 1.
    rewrite parse_value_task_object by (assumption || lia).
    change (lit_comma ++ ?x) with (44 :: x).
    cbn [skip_ws]. change (is_json_ws 44) with false. cbv iota.
    change (44 =? 44) with true. cbv iota.
    rewrite IH by (assumption || lia). reflexivity.
Qed.

Lemma skip_ws_task_object (li : li_element) (tail : jsstring) :
  skip_ws (JSON_stringify (task_object li) ++ tail)
  = JSON_stringify (task_object li) ++ tail.
Proof. rewrite JSON_stringify_task_object. reflexivity. Qed.

Lemma parse_value_task_array (rows : list li_element) (fuel : nat) (rest : jsstring) :
  (length rows + 5 <= fuel)%nat ->
  Forall (fun r => wf_string (li_text r)) rows ->
  parse_value fuel (JSON_stringify (JArr (List.map task_object rows)) ++ rest)
  = Some (JArr (List.map task_object rows), rest).
Proof.
  intros Hfuel Hwf.
  destruct fuel as [|fuel]; [lia|].
  destruct rows as [|li rows]; [reflexivity|].
  cbn [length] in Hfuel.
  change (JSON_stringify (JArr (List.map task_object (li :: rows))))
    with ([91] ++ join_comma (List.map JSON_stringify (List.map task_object (li :: rows)))
          ++ [93]).
  rewrite <- !app_assoc. change ([91] ++ ?x) with (91 :: x).
  change ([93] ++ ?x) with (93 :: x).
  cbn [parse_value]. unfold value_step at 1. cbn [skip_ws]. change (is_json_ws 91) with false. cbv iota.
  change (91 =? 110) with false. change (91 =? 116) with false.
  change (91 =? 102) with false. change (91 =? 34) with false.
  change (91 =? 91) with true. cbv iota.
  rewrite parse_elements_task_objects by (assumption || lia).
  assert (Hhead : exists tl,
    skip_ws (join_comma (List.map JSON_stringify (List.map task_object (li :: rows)))
             ++ 93 :: rest) = 123 :: tl).
  { destruct rows as [|li' rows].
    - cbn [List.map join_comma]. rewrite skip_ws_task_object.
      rewrite JSON_stringify_task_object. eexists. reflexivity.
    - change (join_comma (List.map JSON_stringify (List.map task_object (li :: li' :: rows))))
        with (JSON_stringify (task_object li) ++ lit_comma
              ++ join_comma (List.map JSON_stringify (List.map task_object (li' :: rows)))).
      rewrite <- !app_assoc, skip_ws_task_object.
      rewrite JSON_stringify_task_object. eexists. reflexivity. }
  destruct Hhead as [tl ->]. reflexivity.
Qed.

Lemma length_join_comma_ge (parts : list jsstring) :
  Forall (fun p => (1 <= length p)%nat) parts ->
  (length parts <= length (join_comma parts))%nat.
Proof.
  induction 1 as [|p parts Hp Hparts IH]; [reflexivity|].
  destruct parts as [|q parts]; [cbn [join_comma length]; lia|].
  change (join_comma (p :: q :: parts)) with (p ++ lit_comma ++ join_comma (q :: parts)).
  rewrite !length_app. cbn [length] in *. lia.
Qed.

(** Parsing what [JSON.stringify] wrote for a list of rows gives the rows
    back. *)
Lemma JSON_parse_stringify_tasks (rows : list li_element) :
  Forall (fun r => wf_string (li_text r)) rows ->
  JSON_parse (JSON_stringify (JArr (List.map task_object rows)))
  = Some (JArr (List.map task_object rows)).
Proof.
  intros Hwf. unfold JSON_parse.
  rewrite <- (app_nil_r (JSON_stringify (JArr (List.map task_object rows)))) at 2.
  rewrite parse_value_task_array; [reflexivity| |assumption].
  change (JSON_stringify (JArr (List.map task_object rows)))
    with ([91] ++ join_comma (List.map JSON_stringify (List.map task_object rows)) ++ [93]).
  rewrite !length_app. cbn [length].
  pose proof (length_join_comma_ge
    (List.map JSON_stringify (List.map task_object rows))) as Hlen.
  rewrite !length_map in Hlen.
  assert (Hne : Forall (fun p : jsstring => (1 <= length p)%nat)
            (List.map JSON_stringify (List.map task_object rows))).
  { clear. induction rows as [|li rows IH]; constructor; [|exact IH].
    rewrite JSON_stringify_task_object. cbn [app length]. lia. }
  specialize (Hlen Hne). lia.
Qed.

End RoundTrip.

(** ** The page functions, step by step *)

Section PageLemmas.
Context `{Engine}.

Lemma jsstring_eqb_true (a b : jsstring) : jsstring_eqb a b = true <-> a = b.
Proof. unfold jsstring_eqb. apply bool_decide_eq_true. Qed.

Lemma jsstring_eqb_false (a b : jsstring) : jsstring_eqb a b = false <-> a <> b.
Proof. unfold jsstring_eqb. apply bool_decide_eq_false. Qed.

Lemma trimStart_blank (text : jsstring) : blank text -> trimStart text = [].
Proof.
  induction 1 as [|c text Hc _ IH]; [reflexivity|].
  cbn [trimStart]. now rewrite Hc.
Qed.

Lemma trim_blank (text : jsstring) : blank text -> trim text = [].
Proof.
  intros Hb. unfold trim, trimEnd. now rewrite (trimStart_blank text Hb).
Qed.

Lemma getItem_setItem (k v : jsstring) (s : page) :
  getItem k (setItem k v s) = Some v.
Proof. unfold getItem, setItem. cbn [localStorage]. apply lookup_insert_eq. Qed.

Lemma getItem_setItem_other (k k' v : jsstring) (s : page) :
  k <> k' -> getItem k' (setItem k v s) = getItem k' s.
Proof.
  intros Hne. unfold getItem, setItem. cbn [localStorage].
  now apply lookup_insert_ne.
Qed.

Lemma saveTasks_in_sync (s : page) : tasks_in_sync (saveTasks s).
Proof. unfold tasks_in_sync, saveTasks. now rewrite getItem_setItem. Qed.

Lemma taskList_saveTasks (s : page) : taskList (saveTasks s) = taskList s.
Proof. reflexivity. Qed.

(** A rejected add: the alert and nothing else. *)
Lemma addTask_rejected (taskText isCompleted : value) (s : page) :
  is_empty_string (taskText_of taskText s) = true ->
  addTask taskText isCompleted s = Returns (alert msg_empty_task s).
Proof. intros Hempty. unfold addTask. now rewrite Hempty. Qed.

(** A text that cannot be printed: the error, and the page as it was. *)
Lemma addTask_throws (taskText isCompleted : value) (s : page) :
  is_empty_string (taskText_of taskText s) = false ->
  textContent_of (taskText_of taskText s) = None ->
  addTask taskText isCompleted s = Throws TypeError s.
Proof. intros Hok Hnone. unfold addTask. now rewrite Hok, Hnone. Qed.

(** An accepted add: one row at the end, the list is saved, and the field
    is emptied when the task is open and the field was not blank. *)
Lemma addTask_accepted (taskText isCompleted : value) (s : page)
    (text : jsstring) :
  is_empty_string (taskText_of taskText s) = false ->
  textContent_of (taskText_of taskText s) = Some text ->
  exists s',
    addTask taskText isCompleted s = Returns s'
    /\ taskList s'
       = taskList s
         ++ [{| li_completed := truthy (isCompleted_of isCompleted);
                li_text := text |}]
    /\ tasks_in_sync s'
    /\ alerts s' = alerts s
    /\ body_dark s' = body_dark s
    /\ taskInput_value s'
       = (if negb (truthy (isCompleted_of isCompleted))
             && negb (jsstring_eqb (trim (taskInput_value s)) [])
          then [] else taskInput_value s)
    /\ (forall k, k <> key_tasks -> getItem k s' = getItem k s).
Proof.
  intros Hok Htext. unfold addTask. rewrite Hok, Htext.
  eexists. split; [reflexivity|].
  cbn [taskInput_value set_taskList].
  split; [|split; [apply saveTasks_in_sync|]];
    destruct (negb _ && negb _); repeat split; auto;
    intros k Hk; unfold saveTasks; now rewrite getItem_setItem_other by auto.
Qed.

(** However [addTask] ends, it ends in one of these three ways. *)
Lemma addTask_cases (taskText isCompleted : value) (s : page) :
  addTask taskText isCompleted s = Returns (alert msg_empty_task s)
  \/ addTask taskText isCompleted s = Throws TypeError s
  \/ exists text s',
       addTask taskText isCompleted s = Returns s'
       /\ taskList s'
          = taskList s
            ++ [{| li_completed := truthy (isCompleted_of isCompleted);
                   li_text := text |}]
       /\ tasks_in_sync s'
       /\ alerts s' = alerts s
       /\ body_dark s' = body_dark s
       /\ (taskInput_value s' = taskInput_value s \/ taskInput_value s' = [])
       /\ (forall k, k <> key_tasks -> getItem k s' = getItem k s).
Proof.
  destruct (is_empty_string (taskText_of taskText s)) eqn:Hempty.
  - left. now apply addTask_rejected.
  - destruct (textContent_of (taskText_of taskText s)) as [text|] eqn:Htext.
    + right. right.
      destruct (addTask_accepted taskText isCompleted s text Hempty Htext)
        as (s' & Hrun & Hl & Hsync & Ha & Hd & Hf & Hk).
      exists text, s'. repeat (split; [assumption|]). split; [|exact Hk].
      rewrite Hf. destruct (negb _ && negb _); auto.
    + right. left. now apply addTask_throws.
Qed.

(** The button listener hands [addTask] the event, which is not the empty
    string: whatever the field holds, a row named after the event appears. *)
Lemma on_addButton_click_appends (tag : jsstring) (s : page) :
  taskList (on_addButton_click tag s)
  = taskList s
    ++ [{| li_completed := false; li_text := str "[object " ++ tag ++ str "]" |}]
  /\ alerts (on_addButton_click tag s) = alerts s.
Proof.
  unfold on_addButton_click.
  destruct (addTask_accepted (VEvent tag) VUndefined s _ eq_refl eq_refl)
    as (s' & -> & Hl & _ & Ha & _).
  split; [exact Hl | exact Ha].
Qed.

(** [Enter] on a blank field: the alert, no row, nothing stored. *)
Lemma keypress_Enter_blank (s : page) :
  blank (taskInput_value s) ->
  on_taskInput_keypress lit_Enter s = alert msg_empty_task s.
Proof.
  intros Hb. unfold on_taskInput_keypress.
  change (jsstring_eqb lit_Enter lit_Enter) with true. cbv iota.
  rewrite addTask_rejected; [reflexivity|]. cbn [taskText_of is_empty_string].
  rewrite trim_blank by assumption. reflexivity.
Qed.

(** [Enter] on a field that is not blank returns with the trimmed text as
    one more row. *)
Lemma addTask_typed (s : page) :
  trim (taskInput_value s) <> [] ->
  exists s',
    addTask VUndefined VUndefined s = Returns s'
    /\ taskList s'
       = taskList s
         ++ [{| li_completed := false; li_text := trim (taskInput_value s) |}]
    /\ tasks_in_sync s'
    /\ alerts s' = alerts s
    /\ body_dark s' = body_dark s
    /\ taskInput_value s' = []
    /\ (forall k, k <> key_tasks -> getItem k s' = getItem k s).
Proof.
  intros Hne.
  assert (Hok : is_empty_string (taskText_of VUndefined s) = false)
    by (cbn [taskText_of is_empty_string]; now apply jsstring_eqb_false).
  destruct (addTask_accepted VUndefined VUndefined s _ Hok eq_refl)
    as (s' & Hrun & Hl & Hsync & Ha & Hd & Hf & Hk).
  exists s'. repeat (split; [assumption|]). split; [|exact Hk].
  rewrite Hf. cbn [isCompleted_of truthy ToBoolean negb andb].
  apply jsstring_eqb_false in Hne. now rewrite Hne.
Qed.

(** [Enter] on a field that is not blank: the trimmed text becomes the last
    row, not completed, and the field is cleared. *)
Lemma keypress_Enter_appends (s : page) :
  trim (taskInput_value s) <> [] ->
  taskList (on_taskInput_keypress lit_Enter s)
  = taskList s
    ++ [{| li_completed := false; li_text := trim (taskInput_value s) |}]
  /\ taskInput_value (on_taskInput_keypress lit_Enter s) = [].
Proof.
  intros Hne. unfold on_taskInput_keypress.
  change (jsstring_eqb lit_Enter lit_Enter) with true. cbv iota.
  destruct (addTask_typed s Hne) as (s' & -> & Hl & _ & _ & _ & Hf & _).
  split; [exact Hl | exact Hf].
Qed.

(** [addTask(text)] with a non-empty string returns, and that string,
    verbatim, is the last row, not completed. *)
Lemma addTask_text_appends (text : jsstring) (s : page) :
  text <> [] ->
  exists s',
    addTask (VJson (JStr text)) VUndefined s = Returns s'
    /\ taskList s'
       = taskList s ++ [{| li_completed := false; li_text := text |}].
Proof.
  intros Hne.
  assert (Hok : is_empty_string (taskText_of (VJson (JStr text)) s) = false)
    by (cbn [taskText_of is_empty_string]; now apply jsstring_eqb_false).
  destruct (addTask_accepted (VJson (JStr text)) VUndefined s _ Hok eq_refl)
    as (s' & Hrun & Hl & _).
  exists s'. split; [exact Hrun | exact Hl].
Qed.

End PageLemmas.

(** ** Reloading what was saved *)

Section Reload.
Context `{Engine}.

Lemma get_property_task_object (li : li_element) :
  get_property (task_object li) key_text = Some (VJson (JStr (li_text li)))
  /\ get_property (task_object li) key_completed
     = Some (VJson (JBool (li_completed li))).
Proof. split; reflexivity. Qed.

(** A saved row with a text is added as it was saved. *)
Lemma addTask_saved_row (li : li_element) (s : page) :
  li_text li <> [] ->
  exists s',
    addTask (VJson (JStr (li_text li))) (VJson (JBool (li_completed li))) s
    = Returns s'
    /\ taskList s' = taskList s ++ [li]
    /\ alerts s' = alerts s
    /\ taskInput_value s'
       = (if negb (li_completed li)
             && negb (jsstring_eqb (trim (taskInput_value s)) [])
          then [] else taskInput_value s).
Proof.
  intros Hne.
  assert (Hok : is_empty_string
                  (taskText_of (VJson (JStr (li_text li))) s) = false)
    by (cbn [taskText_of is_empty_string]; now apply jsstring_eqb_false).
  destruct (addTask_accepted (VJson (JStr (li_text li)))
              (VJson (JBool (li_completed li))) s _ Hok eq_refl)
    as (s' & Hrun & Hl & _ & Ha & _ & Hf & _).
  exists s'. split; [exact Hrun|].
  cbn [isCompleted_of truthy ToBoolean] in Hl, Hf.
  split; [now destruct li|]. split; assumption.
Qed.

(** Feeding [forEach] the objects of saved rows appends those rows. *)
Lemma forEach_addTask_task_objects (rows : list li_element) :
  Forall (fun r => li_text r <> []) rows ->
  forall s, exists s',
    forEach_addTask (List.map task_object rows) s = Returns s'
    /\ taskList s' = taskList s ++ rows.
Proof.
  induction 1 as [|li rows Hli _ IH]; intros s.
  - exists s. split; [reflexivity|]. now rewrite app_nil_r.
  - cbn [List.map forEach_addTask].
    destruct (get_property_task_object li) as [-> ->].
    destruct (addTask_saved_row li s Hli) as (s1 & -> & Hl1 & _).
    destruct (IH s1) as (s' & Hrun & Hlist).
    exists s'. split; [exact Hrun|]. rewrite Hlist, Hl1.
    now rewrite <- app_assoc.
Qed.

(** Whatever [forEach] is fed, and however it ends, it either changed
    neither rows nor store, or the store holds the rows it ended with. *)
Lemma forEach_addTask_sync (tasks : list json) :
  forall s,
    match forEach_addTask tasks s with
    | Returns s' | Throws _ s' =>
        (taskList s' = taskList s /\ localStorage s' = localStorage s)
        \/ tasks_in_sync s'
    end.
Proof.
  induction tasks as [|task tasks IH]; intros s; cbn [forEach_addTask].
  - left. split; reflexivity.
  - destruct (get_property task key_text) as [text|]; [|left; split; reflexivity].
    destruct (get_property task key_completed) as [completed|];
      [|left; split; reflexivity].
    destruct (addTask_cases text completed s)
      as [-> | [-> | (t & s1 & -> & _ & Hsync & _)]].
    + exact (IH (alert msg_empty_task s)).
    + left. split; reflexivity.
    + specialize (IH s1).
      destruct (forEach_addTask tasks s1) as [s'|e s'];
        (destruct IH as [[Hl Hs]|IH]; [right|right; exact IH]);
        unfold tasks_in_sync, getItem in *; now rewrite Hl, Hs.
Qed.

End Reload.

(** * The claims *)

Section Claims.
Context `{Engine}.

(** C1, as amended.  When the value stored under [tasks] is not parseable as
    JSON, [loadTasks] does one of two things.  If the value is the empty
    string it is never parsed: the call returns and the page is as it was.
    Otherwise [JSON.parse] raises its [SyntaxError], nothing catches it, and
    the page (rows and store) is as it was when the call began. *)
Theorem loadTasks_unparseable (s : page) (savedTasks : jsstring) :
  getItem key_tasks s = Some savedTasks ->
  JSON_parse savedTasks = None ->
  loadTasks s
  = if jsstring_eqb savedTasks [] then Returns s else Throws SyntaxError s.
Proof.
  intros Hget Hparse. unfold loadTasks. rewrite Hget.
  destruct (jsstring_eqb savedTasks []); cbn [negb]; [reflexivity|].
  now rewrite Hparse.
Qed.

(** At start-up the error also keeps [loadTheme] from running. *)
Lemma on_DOMContentLoaded_unparseable (s : page) (savedTasks : jsstring) :
  getItem key_tasks s = Some savedTasks ->
  savedTasks <> [] ->
  JSON_parse savedTasks = None ->
  on_DOMContentLoaded s = Throws SyntaxError s.
Proof.
  intros Hget Hne Hparse. unfold on_DOMContentLoaded, loadTasks.
  rewrite Hget. apply jsstring_eqb_false in Hne. rewrite Hne. cbn [negb].
  now rewrite Hparse.
Qed.

(** C3.  Take any page whose rows all have non-empty text (of well-formed
    16-bit code units), save it, and reload the saved store into a page with
    no rows: [loadTasks] returns, and the rows are the original ones, same
    texts, same completed flags, same order. *)
Theorem persist_then_reload (s fresh : page) :
  Forall (fun r => li_text r <> []) (taskList s) ->
  Forall (fun r => wf_string (li_text r)) (taskList s) ->
  taskList fresh = [] ->
  localStorage fresh = localStorage (saveTasks s) ->
  exists s', loadTasks fresh = Returns s' /\ taskList s' = taskList s.
Proof.
  intros Hne Hwf Hfresh Hstore.
  unfold loadTasks, getItem. rewrite Hstore.
  fold (getItem key_tasks (saveTasks s)). rewrite (saveTasks_in_sync s).
  rewrite taskList_saveTasks.
  assert (Hnonempty : jsstring_eqb
            (JSON_stringify (JArr (List.map task_object (taskList s)))) [] = false)
    by (now apply jsstring_eqb_false).
  rewrite Hnonempty. cbn [negb].
  rewrite JSON_parse_stringify_tasks by assumption.
  destruct (forEach_addTask_task_objects (taskList s) Hne fresh)
    as (s' & Hrun & Hlist).
  exists s'. split; [exact Hrun|]. now rewrite Hlist, Hfresh.
Qed.


(** C7.  Two clicks in a row on the same place that is not a delete button
    leave the list of rows exactly as it was: every completed flag has its
    original value, and length, order and texts are unchanged. *)
Theorem toggle_twice_restores (s : page) (el : element) :
  is_delete_button el = false ->
  taskList (handleTaskActions el (handleTaskActions el s)) = taskList s.
Proof.
  intros Hel. destruct el as [|i|i|i]; try discriminate Hel; try reflexivity;
    cbn; rewrite list_alter_alter_eq; apply list_alter_id;
    intros [c t]; unfold toggle_completed; cbn; now rewrite negb_involutive.
Qed.

(** What [loadTheme] leaves on the body, whatever was there before. *)
Lemma body_dark_loadTheme (s : page) :
  body_dark (loadTheme s)
  = match getItem key_themePreference s with
    | Some savedTheme =>
        if jsstring_eqb savedTheme [] then body_dark s
        else jsstring_eqb savedTheme lit_dark
    | None => body_dark s
    end.
Proof.
  unfold loadTheme. destruct (getItem key_themePreference s) as [v|]; [|reflexivity].
  destruct (jsstring_eqb v []); cbn [negb]; [reflexivity|].
  destruct (jsstring_eqb v lit_dark); reflexivity.
Qed.


(** C9.  [toggleTheme] flips the display mode and stores [dark] or [light]
    to match the new mode; [loadTheme] on any page holding that store (the
    page after a restart) applies the same mode. *)
Theorem toggleTheme_then_reload (s restarted : page) :
  localStorage restarted = localStorage (toggleTheme s) ->
  body_dark (toggleTheme s) = negb (body_dark s)
  /\ getItem key_themePreference (toggleTheme s)
     = Some (if body_dark (toggleTheme s) then lit_dark else lit_light)
  /\ body_dark (loadTheme restarted) = body_dark (toggleTheme s).
Proof.
  intros Hstore.
  assert (Hget : getItem key_themePreference (toggleTheme s)
                 = Some (if body_dark (toggleTheme s) then lit_dark else lit_light))
    by (unfold toggleTheme; now rewrite getItem_setItem).
  split; [reflexivity|]. split; [exact Hget|].
  unfold loadTheme, getItem at 1. rewrite Hstore.
  fold (getItem key_themePreference (toggleTheme s)). rewrite Hget.
  destruct (body_dark (toggleTheme s)); reflexivity.
Qed.


End Claims.

(** * Beyond the claims *)

(** ** What [trim] takes from the field *)

Lemma trimStart_split (s : jsstring) :
  exists margin, s = margin ++ trimStart s /\ blank margin.
Proof.
  induction s as [|c s (margin & Hs & Hb)].
  - exists []. split; [reflexivity|constructor].
  - cbn [trimStart]. destruct (is_js_space c) eqn:Hc.
    + exists (c :: margin). split; [cbn; now f_equal|now constructor].
    + exists []. split; [reflexivity|constructor].
Qed.

Lemma trimStart_head (s r : jsstring) (c : Z) :
  trimStart s = c :: r -> is_js_space c = false.
Proof.
  induction s as [|d s IH]; [discriminate|]. cbn [trimStart].
  destruct (is_js_space d) eqn:Hd; [exact IH|]. now intros [= <- _].
Qed.

Lemma trimStart_snoc (s : jsstring) (c : Z) :
  is_js_space c = false -> trimStart (s ++ [c]) = trimStart s ++ [c].
Proof.
  intros Hc. induction s as [|d s IH]; cbn [app trimStart].
  - now rewrite Hc.
  - destruct (is_js_space d); [exact IH|reflexivity].
Qed.

Lemma trimEnd_split (s : jsstring) :
  exists margin, s = trimEnd s ++ margin /\ blank margin.
Proof.
  unfold trimEnd. destruct (trimStart_split (rev s)) as (margin & Hs & Hb).
  exists (rev margin). split.
  - rewrite <- rev_app_distr, <- Hs. now rewrite rev_involutive.
  - unfold blank. now apply Forall_rev.
Qed.

Lemma trimEnd_last (s body : jsstring) (c : Z) :
  trimEnd s = body ++ [c] -> is_js_space c = false.
Proof.
  unfold trimEnd. intros Hs.
  apply (f_equal (@rev Z)) in Hs. rewrite rev_involutive, rev_app_distr in Hs.
  cbn in Hs. now apply trimStart_head in Hs.
Qed.

Lemma trimEnd_cons (s : jsstring) (c : Z) :
  is_js_space c = false -> trimEnd (c :: s) = c :: trimEnd s.
Proof.
  intros Hc. unfold trimEnd. cbn [rev].
  rewrite trimStart_snoc by assumption. rewrite rev_app_distr. reflexivity.
Qed.

(** [trim] cuts a blank margin off each end and nothing else; what is left
    neither starts nor ends with white space. *)
Lemma trim_split (s : jsstring) :
  exists before after,
    s = before ++ trim s ++ after /\ blank before /\ blank after
    /\ (forall c r, trim s = c :: r -> is_js_space c = false)
    /\ (forall body c, trim s = body ++ [c] -> is_js_space c = false).
Proof.
  destruct (trimStart_split s) as (before & Hs & Hb).
  destruct (trimEnd_split (trimStart s)) as (after & Ht & Ha).
  exists before, after. unfold trim.
  split; [now rewrite <- Ht|]. split; [exact Hb|]. split; [exact Ha|]. split.
  - intros c r Hc. destruct (trimStart s) as [|d t] eqn:Hd.
    + discriminate Hc.
    + pose proof (trimStart_head s t d Hd) as Hsp.
      rewrite trimEnd_cons in Hc by assumption. now injection Hc as <- _.
  - intros body c. apply trimEnd_last.
Qed.

Lemma trim_empty_blank (s : jsstring) : trim s = [] <-> blank s.
Proof.
  split; [|apply trim_blank].
  intros Ht. destruct (trim_split s) as (before & after & Hs & Hb & Ha & _).
  rewrite Ht in Hs. rewrite Hs. unfold blank in *. cbn [app].
  now apply Forall_app.
Qed.

Lemma wf_string_trim (s : jsstring) : wf_string s -> wf_string (trim s).
Proof.
  intros Hwf. destruct (trim_split s) as (before & after & Hs & _).
  rewrite Hs in Hwf. unfold wf_string in *.
  apply Forall_app in Hwf as [_ Hwf]. now apply Forall_app in Hwf as [Hwf _].
Qed.

(** ** The listeners of the field and of the list *)

Section Listeners.
Context `{Engine}.

(** X1.  The [keypress] listener.  A key other than [Enter] changes
    nothing.  [Enter] on a blank field shows the alert and changes nothing
    else.  [Enter] on any other field appends one row, not completed, whose
    text is the trimmed content of the field, empties the field, shows no
    alert, and leaves the store holding the rows on display. *)
Theorem keypress_listener (key : jsstring) (s : page) :
  (key <> lit_Enter -> on_taskInput_keypress key s = s)
  /\ (key = lit_Enter -> blank (taskInput_value s) ->
      on_taskInput_keypress key s = alert msg_empty_task s)
  /\ (key = lit_Enter -> ~ blank (taskInput_value s) ->
      taskList (on_taskInput_keypress key s)
      = taskList s
        ++ [{| li_completed := false; li_text := trim (taskInput_value s) |}]
      /\ taskInput_value (on_taskInput_keypress key s) = []
      /\ alerts (on_taskInput_keypress key s) = alerts s
      /\ tasks_in_sync (on_taskInput_keypress key s)).
Proof.
  split; [|split].
  - intros Hkey. unfold on_taskInput_keypress.
    apply jsstring_eqb_false in Hkey. now rewrite Hkey.
  - intros -> Hb. now apply keypress_Enter_blank.
  - intros -> Hnb.
    assert (Hne : trim (taskInput_value s) <> [])
      by (intros Ht; now apply Hnb, trim_empty_blank).
    unfold on_taskInput_keypress.
    change (jsstring_eqb lit_Enter lit_Enter) with true. cbv iota.
    destruct (addTask_typed s Hne) as (s' & -> & Hl & Hsync & Ha & _ & Hf & _).
    cbn [final_page]. repeat (split; [assumption|]). exact Hsync.
Qed.

(** X2.  The text of a row added with [Enter].  The field is that text
    between two blank margins: the text is not empty, neither starts nor
    ends with white space, and keeps everything in between as typed. *)
Theorem keypress_Enter_row_text (s : page) :
  ~ blank (taskInput_value s) ->
  exists before text after,
    taskInput_value s = before ++ text ++ after
    /\ blank before /\ blank after
    /\ text <> []
    /\ (forall c r, text = c :: r -> is_js_space c = false)
    /\ (forall body c, text = body ++ [c] -> is_js_space c = false)
    /\ taskList (on_taskInput_keypress lit_Enter s)
       = taskList s ++ [{| li_completed := false; li_text := text |}].
Proof.
  intros Hnb.
  assert (Hne : trim (taskInput_value s) <> [])
    by (intros Ht; now apply Hnb, trim_empty_blank).
  destruct (trim_split (taskInput_value s))
    as (before & after & Hs & Hb & Ha & Hhead & Hlast).
  exists before, (trim (taskInput_value s)), after.
  destruct (keypress_Enter_appends s Hne) as (Hrows & _).
  repeat (split; [assumption|]). exact Hrows.
Qed.

(** X20.  The click listener of the add button.  It is [addTask] itself and
    is handed the click event, so whatever the field holds (blank or not)
    no alert is shown and one row is appended, not completed, whose text is
    the printed event and not the content of the field.  A field that is
    not blank is emptied, a blank one is kept; the store holds the rows on
    display. *)
Theorem addButton_click_listener (event_tag : jsstring) (s : page) :
  taskList (on_addButton_click event_tag s)
  = taskList s
    ++ [{| li_completed := false;
           li_text := str "[object " ++ event_tag ++ str "]" |}]
  /\ alerts (on_addButton_click event_tag s) = alerts s
  /\ taskInput_value (on_addButton_click event_tag s)
     = (if jsstring_eqb (trim (taskInput_value s)) [] then taskInput_value s
        else [])
  /\ tasks_in_sync (on_addButton_click event_tag s).
Proof.
  unfold on_addButton_click.
  destruct (addTask_accepted (VEvent event_tag) VUndefined s _ eq_refl eq_refl)
    as (s' & -> & Hl & Hsync & Ha & _ & Hf & _).
  cbn [final_page].
  split; [exact Hl|]. split; [exact Ha|]. split; [|exact Hsync].
  rewrite Hf. cbn [isCompleted_of truthy ToBoolean negb andb].
  now destruct (jsstring_eqb (trim (taskInput_value s)) []).
Qed.

End Listeners.

(** ** Saving, and clicks on the list *)

Section Clicks.
Context `{Engine}.

Lemma saveTasks_set_taskList (l1 l2 : list li_element) (s : page) :
  saveTasks (set_taskList l2 (saveTasks (set_taskList l1 s)))
  = saveTasks (set_taskList l2 s).
Proof.
  unfold saveTasks, setItem, set_taskList. cbn. f_equal. apply insert_insert_eq.
Qed.

Lemma saveTasks_in_sync_id (s : page) : tasks_in_sync s -> saveTasks s = s.
Proof.
  intros Hsync. unfold tasks_in_sync, getItem in Hsync.
  unfold saveTasks, setItem. rewrite (insert_id _ _ _ Hsync).
  now destruct s.
Qed.

Lemma fmap_li_text_toggle (i : nat) (l : list li_element) :
  li_text <$> alter toggle_completed i l = li_text <$> l.
Proof.
  rewrite (list_fmap_alter li_text toggle_completed id)
    by (apply Forall_true; intros [c t]; reflexivity).
  now apply list_alter_id.
Qed.

(** X3.  [saveTasks] changes nothing on a page whose store already holds
    the rows on display, and only on such a page; so saving twice is saving
    once. *)
Theorem saveTasks_fixed_iff_in_sync (s : page) :
  (saveTasks s = s <-> tasks_in_sync s)
  /\ saveTasks (saveTasks s) = saveTasks s.
Proof.
  split; [split|].
  - intros Hsave. rewrite <- Hsave. apply saveTasks_in_sync.
  - apply saveTasks_in_sync_id.
  - apply saveTasks_in_sync_id, saveTasks_in_sync.
Qed.

(** X4.  A click on the list never touches the field, the theme, the
    alerts, or any key of the store other than [tasks].  A click that is not
    on a delete button keeps every text in its place; a click on the delete
    button of row [i] takes the [i]-th text out and keeps the others in
    order. *)
Theorem handleTaskActions_frame (el : element) (s : page) :
  taskInput_value (handleTaskActions el s) = taskInput_value s
  /\ body_dark (handleTaskActions el s) = body_dark s
  /\ alerts (handleTaskActions el s) = alerts s
  /\ (forall k, k <> key_tasks ->
      getItem k (handleTaskActions el s) = getItem k s)
  /\ (is_delete_button el = false ->
      li_text <$> taskList (handleTaskActions el s) = li_text <$> taskList s)
  /\ (forall i, el = DeleteButton i ->
      li_text <$> taskList (handleTaskActions el s)
      = delete i (li_text <$> taskList s)).
Proof.
  assert (Hother : forall l k, k <> key_tasks ->
            getItem k (saveTasks (set_taskList l s)) = getItem k s).
  { intros l k Hk. unfold saveTasks. now rewrite getItem_setItem_other by auto. }
  destruct el as [|i|i|i]; cbn;
    (split; [reflexivity|]); (split; [reflexivity|]); (split; [reflexivity|]);
    (split; [solve [auto]|]); (split; [|intros j [= <-] || (intros j; discriminate)]);
    try reflexivity; try discriminate.
  - intros _. apply fmap_li_text_toggle.
  - intros _. apply fmap_li_text_toggle.
  - apply list_fmap_delete.
Qed.

(** X5.  Clicks that tick rows can be made in either order: the page ends
    the same, rows and store. *)
Theorem toggles_commute (el1 el2 : element) (s : page) :
  is_delete_button el1 = false ->
  is_delete_button el2 = false ->
  handleTaskActions el1 (handleTaskActions el2 s)
  = handleTaskActions el2 (handleTaskActions el1 s).
Proof.
  assert (Hrows : forall i j, 
    handleTaskActions (Li i) (handleTaskActions (Li j) s)
    = handleTaskActions (Li j) (handleTaskActions (Li i) s)).
  { intros i j. cbn.
    change (taskList (saveTasks (set_taskList ?l s))) with l.
    rewrite !saveTasks_set_taskList.
    destruct (decide (i = j)) as [->|Hij]; [reflexivity|].
    now rewrite list_alter_alter_ne. }
  intros H1 H2.
  destruct el1 as [|i|i|i], el2 as [|j|j|j];
    try discriminate; try reflexivity; apply Hrows.
Qed.

(** X6.  Two clicks on the same place of a row, not on its delete button,
    amount to one save: every row is back as it was and the store holds
    them.  On a page whose store already held the rows, nothing at all has
    changed. *)
Theorem toggle_twice_is_save (el : element) (s : page) :
  is_delete_button el = false ->
  closest_li el <> None ->
  handleTaskActions el (handleTaskActions el s) = saveTasks s
  /\ (tasks_in_sync s -> handleTaskActions el (handleTaskActions el s) = s).
Proof.
  intros Hel Hrow.
  assert (Hsave : handleTaskActions el (handleTaskActions el s) = saveTasks s).
  { destruct el as [|i|i|i]; try discriminate; try contradiction; cbn;
      change (taskList (saveTasks (set_taskList ?l s))) with l;
      rewrite saveTasks_set_taskList, list_alter_alter_eq;
      (rewrite list_alter_id
        by (intros [c t]; unfold toggle_completed; cbn; now rewrite negb_involutive));
      now destruct s. }
  split; [exact Hsave|]. intros Hsync. rewrite Hsave.
  now apply saveTasks_in_sync_id.
Qed.

End Clicks.

(** ** The theme *)

Section Theme.
Context `{Engine}.

Lemma set_body_dark_id (s : page) : set_body_dark (body_dark s) s = s.
Proof. now destruct s. Qed.

Lemma theme_settled_toggleTheme (s : page) : theme_settled (toggleTheme s).
Proof.
  left. unfold toggleTheme. rewrite getItem_setItem. reflexivity.
Qed.

Lemma theme_name_not_empty (dark : bool) :
  jsstring_eqb (theme_name dark) [] = false.
Proof. now destruct dark. Qed.

Lemma theme_name_dark (dark : bool) :
  jsstring_eqb (theme_name dark) lit_dark = dark.
Proof. now destruct dark. Qed.

Lemma loadTheme_settled (s : page) : theme_settled s -> loadTheme s = s.
Proof.
  unfold theme_settled, loadTheme. intros [Hget | [Hget _]]; rewrite Hget.
  - rewrite theme_name_not_empty, theme_name_dark. cbn [negb].
    destruct (body_dark s) eqn:Hd; rewrite <- Hd; apply set_body_dark_id.
  - reflexivity.
Qed.

(** X7.  Two clicks on the theme switch bring the display mode back, and
    the stored preference names it.  If the stored preference named the
    mode before the clicks, the page is exactly as it was. *)
Theorem toggleTheme_twice (s : page) :
  body_dark (toggleTheme (toggleTheme s)) = body_dark s
  /\ getItem key_themePreference (toggleTheme (toggleTheme s))
     = Some (theme_name (body_dark s))
  /\ (getItem key_themePreference s = Some (theme_name (body_dark s)) ->
      toggleTheme (toggleTheme s) = s).
Proof.
  assert (Hdark : body_dark (toggleTheme (toggleTheme s)) = body_dark s)
    by (cbn; apply negb_involutive).
  split; [exact Hdark|]. split.
  - unfold toggleTheme at 1. rewrite getItem_setItem.
    fold (toggleTheme s). cbn [body_dark set_body_dark].
    change (body_dark (toggleTheme s)) with (negb (body_dark s)).
    now rewrite negb_involutive.
  - intros Hget. unfold getItem in Hget.
    unfold toggleTheme, setItem, set_body_dark. cbn.
    rewrite insert_insert_eq, negb_involutive.
    fold (theme_name (body_dark s)). rewrite (insert_id _ _ _ Hget).
    now destruct s.
Qed.

(** X8.  [loadTheme] settles the page: running it again changes nothing.
    Right after [toggleTheme] it changes nothing either, since the stored
    preference names the mode on display. *)
Theorem loadTheme_idempotent (s : page) :
  loadTheme (loadTheme s) = loadTheme s
  /\ loadTheme (toggleTheme s) = toggleTheme s.
Proof.
  split; [|apply loadTheme_settled, theme_settled_toggleTheme].
  assert (Hset : forall b,
            getItem key_themePreference (set_body_dark b s)
            = getItem key_themePreference s) by reflexivity.
  unfold loadTheme at 2.
  destruct (getItem key_themePreference s) as [v|] eqn:Hget.
  - destruct (jsstring_eqb v []) eqn:Hv; cbn [negb].
    + unfold loadTheme. now rewrite Hget, Hv.
    + destruct (jsstring_eqb v lit_dark) eqn:Hd;
        unfold loadTheme; rewrite Hset, Hget, Hv, Hd; reflexivity.
  - unfold loadTheme. now rewrite Hget.
Qed.

Lemma loadTheme_keeps (s : page) :
  taskInput_value (loadTheme s) = taskInput_value s
  /\ taskList (loadTheme s) = taskList s
  /\ alerts (loadTheme s) = alerts s
  /\ localStorage (loadTheme s) = localStorage s.
Proof.
  unfold loadTheme.
  destruct (getItem key_themePreference s) as [v|]; [|repeat split].
  destruct (negb (jsstring_eqb v [])); [|repeat split].
  destruct (jsstring_eqb v lit_dark); repeat split.
Qed.

(** X9.  The theme functions keep to the theme: [toggleTheme] and
    [loadTheme] leave the field, the rows and the alerts as they are, and
    [toggleTheme] writes no key but [themePreference] while [loadTheme]
    writes none at all. *)
Theorem theme_functions_frame (s : page) :
  (taskInput_value (toggleTheme s) = taskInput_value s
   /\ taskList (toggleTheme s) = taskList s
   /\ alerts (toggleTheme s) = alerts s
   /\ forall k, k <> key_themePreference ->
        getItem k (toggleTheme s) = getItem k s)
  /\ (taskInput_value (loadTheme s) = taskInput_value s
      /\ taskList (loadTheme s) = taskList s
      /\ alerts (loadTheme s) = alerts s
      /\ localStorage (loadTheme s) = localStorage s).
Proof.
  split.
  - repeat split; try reflexivity.
    intros k Hk. unfold toggleTheme. now rewrite getItem_setItem_other by auto.
  - apply loadTheme_keeps.
Qed.

End Theme.

(** ** Adding and reloading *)

Section Loading.
Context `{Engine}.

Lemma addTask_keeps (taskText isCompleted : value) (s : page) :
  body_dark (final_page (addTask taskText isCompleted s)) = body_dark s
  /\ (forall k, k <> key_tasks ->
      getItem k (final_page (addTask taskText isCompleted s)) = getItem k s)
  /\ taskList s `prefix_of` taskList (final_page (addTask taskText isCompleted s))
  /\ alerts s `prefix_of` alerts (final_page (addTask taskText isCompleted s))
  /\ (taskInput_value (final_page (addTask taskText isCompleted s))
      = taskInput_value s
      \/ taskInput_value (final_page (addTask taskText isCompleted s)) = []).
Proof.
  destruct (addTask_cases taskText isCompleted s)
    as [-> | [-> | (t & s1 & -> & Hl & _ & Ha & Hd & Hf & Hk)]];
    cbn [final_page].
  - repeat split; auto. now exists [msg_empty_task].
  - repeat split; auto.
  - split; [exact Hd|]. split; [exact Hk|]. split; [eexists; exact Hl|].
    split; [now rewrite Ha|exact Hf].
Qed.

(** X10.  Whatever it is called with, and whether it returns or throws,
    [addTask] leaves the theme and every key of the store other than
    [tasks] alone, keeps the rows it found in their order and adds at most
    one after them, and either keeps the field or empties it.  When it
    throws, the error is a [TypeError] and the page is exactly as it was:
    nothing was appended and nothing saved. *)
Theorem addTask_frame (taskText isCompleted : value) (s : page) :
  body_dark (final_page (addTask taskText isCompleted s)) = body_dark s
  /\ (forall k, k <> key_tasks ->
      getItem k (final_page (addTask taskText isCompleted s)) = getItem k s)
  /\ (taskList (final_page (addTask taskText isCompleted s)) = taskList s
      \/ exists li,
           taskList (final_page (addTask taskText isCompleted s))
           = taskList s ++ [li])
  /\ (taskInput_value (final_page (addTask taskText isCompleted s))
      = taskInput_value s
      \/ taskInput_value (final_page (addTask taskText isCompleted s)) = [])
  /\ (forall e s',
      addTask taskText isCompleted s = Throws e s' -> e = TypeError /\ s' = s).
Proof.
  destruct (addTask_cases taskText isCompleted s)
    as [-> | [-> | (t & s1 & -> & Hl & _ & _ & Hd & Hf & Hk)]];
    cbn [final_page].
  - repeat split; auto; discriminate.
  - repeat split; auto; congruence.
  - split; [exact Hd|]. split; [exact Hk|].
    split; [right; eexists; exact Hl|]. split; [exact Hf|]. discriminate.
Qed.

Lemma forEach_addTask_keeps (tasks : list json) :
  forall s,
    body_dark (final_page (forEach_addTask tasks s)) = body_dark s
    /\ (forall k, k <> key_tasks ->
        getItem k (final_page (forEach_addTask tasks s)) = getItem k s)
    /\ taskList s `prefix_of` taskList (final_page (forEach_addTask tasks s))
    /\ alerts s `prefix_of` alerts (final_page (forEach_addTask tasks s)).
Proof.
  induction tasks as [|task tasks IH]; intros s; cbn [forEach_addTask].
  - repeat split; auto.
  - destruct (get_property task key_text) as [text|]; [|repeat split; auto].
    destruct (get_property task key_completed) as [completed|];
      [|repeat split; auto].
    destruct (addTask_keeps text completed s) as (Hd' & Hk' & Hr' & Ha' & _).
    destruct (addTask text completed s) as [s1|e s1]; cbn [final_page] in *.
    + destruct (IH s1) as (Hd & Hk & Hr & Ha).
      split; [congruence|]. split; [intros k Hne; rewrite Hk, Hk'; auto|].
      split; etrans; eauto.
    + repeat split; auto.
Qed.

Lemma forEach_addTask_field_wf (tasks : list json) :
  forall s,
    wf_string (taskInput_value s) ->
    wf_string (taskInput_value (final_page (forEach_addTask tasks s))).
Proof.
  induction tasks as [|task tasks IH]; intros s Hwf; cbn [forEach_addTask].
  - exact Hwf.
  - destruct (get_property task key_text) as [text|]; [|exact Hwf].
    destruct (get_property task key_completed) as [completed|]; [|exact Hwf].
    destruct (addTask_keeps text completed s) as (_ & _ & _ & _ & Hf).
    assert (Hwf1 : wf_string
                     (taskInput_value (final_page (addTask text completed s))))
      by (destruct Hf as [-> | ->]; [exact Hwf|constructor]).
    destruct (addTask text completed s) as [s1|e s1]; cbn [final_page] in *.
    + now apply IH.
    + exact Hwf1.
Qed.

(** [loadTasks] has no hand in the theme. *)
Lemma loadTasks_keeps_theme (s : page) :
  body_dark (final_page (loadTasks s)) = body_dark s
  /\ (forall k, k <> key_tasks ->
      getItem k (final_page (loadTasks s)) = getItem k s).
Proof.
  unfold loadTasks.
  destruct (getItem key_tasks s) as [saved|]; [|split; auto].
  destruct (negb (jsstring_eqb saved [])); [|split; auto].
  destruct (JSON_parse saved) as [[| | | |tasks|]|]; try (split; auto; fail).
  destruct (forEach_addTask_keeps tasks s) as (Hd & Hk & _). now split.
Qed.

(** X11.  Whatever the store holds and however the call ends, [loadTasks]
    leaves the theme and every key other than [tasks] alone, and never
    removes, changes or reorders a row or an alert that was already there:
    it only adds after them. *)
Theorem loadTasks_frame (s : page) :
  body_dark (final_page (loadTasks s)) = body_dark s
  /\ (forall k, k <> key_tasks ->
      getItem k (final_page (loadTasks s)) = getItem k s)
  /\ taskList s `prefix_of` taskList (final_page (loadTasks s))
  /\ alerts s `prefix_of` alerts (final_page (loadTasks s)).
Proof.
  unfold loadTasks.
  destruct (getItem key_tasks s) as [saved|]; [|repeat split; auto].
  destruct (negb (jsstring_eqb saved [])); [|repeat split; auto].
  destruct (JSON_parse saved) as [[| | | |tasks|]|]; try (repeat split; auto; fail).
  apply forEach_addTask_keeps.
Qed.

(** One stored object after the other: a text that is empty earns the alert
    and no row, any other text becomes a row. *)
Lemma forEach_addTask_saved_rows (rows : list li_element) :
  forall s, exists s',
    forEach_addTask (List.map task_object rows) s = Returns s'
    /\ taskList s' = taskList s ++ List.filter has_text rows
    /\ alerts s'
       = alerts s
         ++ replicate (length (List.filter (fun r => negb (has_text r)) rows))
              msg_empty_task.
Proof.
  induction rows as [|li rows IH]; intros s.
  - exists s. cbn. now rewrite !app_nil_r.
  - cbn [List.map forEach_addTask].
    destruct (get_property_task_object li) as [-> ->].
    cbn [List.filter].
    destruct (jsstring_eqb (li_text li) []) eqn:Hempty.
    + assert (Hht : has_text li = false) by (unfold has_text; now rewrite Hempty).
      rewrite Hht. cbn [negb length replicate].
      rewrite addTask_rejected by exact Hempty.
      destruct (IH (alert msg_empty_task s)) as (s' & Hrun & Hrows & Halerts).
      exists s'. split; [exact Hrun|]. rewrite Hrows, Halerts.
      cbn [taskList alerts alert].
      split; [reflexivity|]. now rewrite <- app_assoc.
    + assert (Hht : has_text li = true) by (unfold has_text; now rewrite Hempty).
      rewrite Hht. cbn [negb].
      apply jsstring_eqb_false in Hempty.
      destruct (addTask_saved_row li s Hempty) as (s1 & -> & Hl1 & Ha1 & _).
      destruct (IH s1) as (s' & Hrun & Hrows & Halerts).
      exists s'. split; [exact Hrun|]. rewrite Hrows, Halerts, Hl1, Ha1.
      split; [now rewrite <- app_assoc|reflexivity].
Qed.

Lemma loadTasks_saved_rows (rows : list li_element) (s : page) :
  getItem key_tasks s
  = Some (JSON_stringify (JArr (List.map task_object rows))) ->
  Forall (fun r => wf_string (li_text r)) rows ->
  loadTasks s = forEach_addTask (List.map task_object rows) s.
Proof.
  intros Hget Hwf. unfold loadTasks. rewrite Hget.
  assert (Hne : jsstring_eqb
            (JSON_stringify (JArr (List.map task_object rows))) [] = false)
    by (now apply jsstring_eqb_false).
  rewrite Hne. cbn [negb]. now rewrite JSON_parse_stringify_tasks.
Qed.

(** X12.  Reloading a store that [saveTasks] wrote, onto any page.  The call
    returns.  The rows already on the page stay, and the saved rows follow
    them in saved order, except those whose text is empty: each of these is
    left out and earns one alert. *)
Theorem reload_saved_rows (rows : list li_element) (s : page) :
  getItem key_tasks s
  = Some (JSON_stringify (JArr (List.map task_object rows))) ->
  Forall (fun r => wf_string (li_text r)) rows ->
  exists s',
    loadTasks s = Returns s'
    /\ taskList s' = taskList s ++ List.filter has_text rows
    /\ alerts s'
       = alerts s
         ++ replicate (length (List.filter (fun r => negb (has_text r)) rows))
              msg_empty_task.
Proof.
  intros Hget Hwf. rewrite (loadTasks_saved_rows rows s Hget Hwf).
  apply forEach_addTask_saved_rows.
Qed.

(** X18.  When reloading leaves the field alone.  If the field is blank,
    or every saved row is ticked, reloading a store that [saveTasks] wrote
    returns with the field exactly as it was. *)
Theorem reload_keeps_field (rows : list li_element) (s : page) :
  getItem key_tasks s
  = Some (JSON_stringify (JArr (List.map task_object rows))) ->
  Forall (fun r => wf_string (li_text r)) rows ->
  blank (taskInput_value s) \/ Forall (fun r => li_completed r = true) rows ->
  exists s', loadTasks s = Returns s' /\ taskInput_value s' = taskInput_value s.
Proof.
  intros Hget Hwf Hcase. rewrite (loadTasks_saved_rows rows s Hget Hwf).
  clear Hget Hwf. revert s Hcase.
  induction rows as [|li rows IH]; intros s Hcase.
  - exists s. split; reflexivity.
  - cbn [List.map forEach_addTask].
    destruct (get_property_task_object li) as [-> ->].
    assert (Hstep : exists s1,
              addTask (VJson (JStr (li_text li)))
                (VJson (JBool (li_completed li))) s = Returns s1
              /\ taskInput_value s1 = taskInput_value s).
    { destruct (jsstring_eqb (li_text li) []) eqn:Hempty.
      - exists (alert msg_empty_task s).
        split; [now apply addTask_rejected|reflexivity].
      - apply jsstring_eqb_false in Hempty.
        destruct (addTask_saved_row li s Hempty) as (s1 & Hrun & _ & _ & Hf).
        exists s1. split; [exact Hrun|]. rewrite Hf.
        destruct Hcase as [Hb | Hticked].
        + rewrite (trim_blank _ Hb). change (jsstring_eqb [] []) with true.
          now rewrite andb_false_r.
        + apply Forall_cons_1 in Hticked as [-> _]. reflexivity. }
    destruct Hstep as (s1 & -> & Hfield).
    destruct (IH s1) as (s' & Hrun & Hs').
    { destruct Hcase as [Hb | Hticked]; [left; now rewrite Hfield|right].
      now apply Forall_cons_1 in Hticked as [_ ?]. }
    exists s'. split; [exact Hrun|]. now rewrite Hs', Hfield.
Qed.

(** X19.  Taking back what was just added.  An add that passes validation
    and returns has made the list one row longer; a click on the delete
    button of that last row then gives the rows as they were before the
    add, and the store holds them. *)
Theorem add_then_delete (taskText isCompleted : value) (s s1 : page) :
  addTask taskText isCompleted s = Returns s1 ->
  is_empty_string (taskText_of taskText s) = false ->
  length (taskList s1) = S (length (taskList s))
  /\ taskList (handleTaskActions (DeleteButton (length (taskList s))) s1)
     = taskList s
  /\ tasks_in_sync (handleTaskActions (DeleteButton (length (taskList s))) s1).
Proof.
  intros Hrun Hok.
  assert (Hl : exists li, taskList s1 = taskList s ++ [li]).
  { destruct (textContent_of (taskText_of taskText s)) as [text|] eqn:Htext.
    - destruct (addTask_accepted taskText isCompleted s text Hok Htext)
        as (s2 & Hadd & Hl & _).
      rewrite Hadd in Hrun. injection Hrun as <-. eexists. exact Hl.
    - rewrite (addTask_throws taskText isCompleted s Hok Htext) in Hrun.
      discriminate Hrun. }
  destruct Hl as (li & Hl).
  split; [rewrite Hl, length_app; cbn; lia|].
  split; [|cbn; apply saveTasks_in_sync].
  cbn. rewrite Hl, delete_take_drop.
  rewrite take_app_length, drop_ge by (rewrite length_app; cbn; lia).
  now rewrite app_nil_r.
Qed.

End Loading.

(** ** When reloading goes wrong, or finds less than it expects *)

Section Mishaps.
Context `{Engine}.

Lemma forEach_addTask_app (before after : list json) :
  forall s,
    forEach_addTask (before ++ after) s
    = match forEach_addTask before s with
      | Returns s1 => forEach_addTask after s1
      | Throws e s1 => Throws e s1
      end.
Proof.
  induction before as [|task before IH]; intros s; cbn [app forEach_addTask].
  - reflexivity.
  - destruct (get_property task key_text); [|reflexivity].
    destruct (get_property task key_completed); [|reflexivity].
    destruct (addTask _ _ s); [apply IH|reflexivity].
Qed.

(** X13.  A stored array with [null] among its entries.  The task objects
    before the [null] are added, and saved, one by one; at the [null] a
    [TypeError] escapes, the entries after it are never looked at, and the
    rows added so far stay on display. *)
Theorem reload_stops_at_null (rows : list li_element) (rest : list json)
    (saved : jsstring) (s : page) :
  getItem key_tasks s = Some saved ->
  JSON_parse saved = Some (JArr (List.map task_object rows ++ JNull :: rest)) ->
  Forall (fun r => li_text r <> []) rows ->
  exists s',
    loadTasks s = Throws TypeError s'
    /\ taskList s' = taskList s ++ rows
    /\ (rows <> [] -> tasks_in_sync s').
Proof.
  intros Hget Hparse Hnamed.
  assert (Hne : jsstring_eqb saved [] = false).
  { apply jsstring_eqb_false. intros ->. discriminate Hparse. }
  destruct (forEach_addTask_task_objects rows Hnamed s) as (s' & Hrun & Hrows).
  exists s'.
  assert (Hload : loadTasks s = Throws TypeError s').
  { unfold loadTasks. rewrite Hget, Hne. cbn [negb]. rewrite Hparse.
    rewrite forEach_addTask_app, Hrun. reflexivity. }
  split; [exact Hload|]. split; [exact Hrows|].
  intros Hsome. pose proof (forEach_addTask_sync (List.map task_object rows) s) as Hinv.
  rewrite Hrun in Hinv. destruct Hinv as [[Hsame _]|Hsync]; [|exact Hsync].
  rewrite Hrows in Hsame. apply (f_equal length) in Hsame.
  rewrite length_app in Hsame. destruct rows; [contradiction|cbn in Hsame; lia].
Qed.

(** X14.  A stored entry that is an object without a [text] member.  Its
    text is [undefined], so the default of [addTask] steps in: the row gets
    the trimmed content of the input field; when the field is blank no row
    is added and the alert is shown. *)
Theorem reload_entry_without_text (members : list (jsstring * json))
    (saved : jsstring) (s : page) :
  getItem key_tasks s = Some saved ->
  JSON_parse saved = Some (JArr [JObj members]) ->
  get_member key_text members = VUndefined ->
  exists s',
    loadTasks s = Returns s'
    /\ (blank (taskInput_value s) ->
        taskList s' = taskList s /\ alerts s' = alerts s ++ [msg_empty_task])
    /\ (~ blank (taskInput_value s) ->
        taskList s'
        = taskList s
          ++ [{| li_completed :=
                   truthy (isCompleted_of (get_member key_completed members));
                 li_text := trim (taskInput_value s) |}]
        /\ alerts s' = alerts s).
Proof.
  intros Hget Hparse Htext.
  assert (Hne : jsstring_eqb saved [] = false).
  { apply jsstring_eqb_false. intros ->. discriminate Hparse. }
  assert (Hload : loadTasks s
                  = match addTask VUndefined (get_member key_completed members) s with
                    | Returns s1 => Returns s1
                    | Throws e s1 => Throws e s1
                    end).
  { unfold loadTasks. rewrite Hget, Hne. cbn [negb]. rewrite Hparse.
    cbn [forEach_addTask get_property]. now rewrite Htext. }
  destruct (is_empty_string (taskText_of VUndefined s)) eqn:Hempty.
  - rewrite addTask_rejected in Hload by exact Hempty.
    exists (alert msg_empty_task s). split; [exact Hload|]. split.
    + intros _. split; reflexivity.
    + intros Hnb. exfalso. apply Hnb, trim_empty_blank.
      cbn [taskText_of is_empty_string] in Hempty.
      now apply jsstring_eqb_true in Hempty.
  - destruct (addTask_accepted VUndefined (get_member key_completed members) s
                _ Hempty eq_refl) as (s' & Hrun & Hrows & _ & Halerts & _).
    rewrite Hrun in Hload. exists s'. split; [exact Hload|]. split.
    + intros Hb. exfalso.
      cbn [taskText_of is_empty_string] in Hempty.
      apply jsstring_eqb_false in Hempty. now apply Hempty, trim_blank.
    + intros _. split; [exact Hrows | exact Halerts].
Qed.

(** X15.  An error in [loadTasks] is an error of the start-up listener:
    [loadTheme] is never reached, so the page keeps the mode it came up
    with whatever preference is stored. *)
Theorem startup_error_skips_theme (s s' : page) (e : error) :
  loadTasks s = Throws e s' ->
  on_DOMContentLoaded s = Throws e s'
  /\ body_dark s' = body_dark s
  /\ getItem key_themePreference s' = getItem key_themePreference s.
Proof.
  intros Hload. unfold on_DOMContentLoaded. rewrite Hload.
  split; [reflexivity|].
  pose proof (loadTasks_keeps_theme s) as Hkeeps.
  rewrite Hload in Hkeeps. cbn [final_page] in Hkeeps.
  destruct Hkeeps as [Hd Hk]. split; [exact Hd|]. now apply Hk.
Qed.

End Mishaps.

(** ** Sessions and restarts *)

Section Sessions.
Context `{Engine}.

Lemma tasks_settled_ext (s s' : page) :
  taskList s' = taskList s ->
  getItem key_tasks s' = getItem key_tasks s ->
  tasks_settled s -> tasks_settled s'.
Proof.
  unfold tasks_settled, tasks_in_sync. intros -> ->. auto.
Qed.

Lemma theme_settled_ext (s s' : page) :
  body_dark s' = body_dark s ->
  getItem key_themePreference s' = getItem key_themePreference s ->
  theme_settled s -> theme_settled s'.
Proof.
  unfold theme_settled. intros -> ->. auto.
Qed.

Lemma keys_differ : key_themePreference <> key_tasks.
Proof. discriminate. Qed.

Lemma settled_addTask_accepted (taskText isCompleted : value) (s : page)
    (text : jsstring) :
  settled s ->
  is_empty_string (taskText_of taskText s) = false ->
  textContent_of (taskText_of taskText s) = Some text ->
  text <> [] ->
  wf_string text ->
  settled (final_page (addTask taskText isCompleted s)).
Proof.
  intros (Hfield & Hrows & _ & Htheme) Hok Htext Hne Hwf.
  destruct (addTask_accepted taskText isCompleted s text Hok Htext)
    as (s' & -> & Hl & Hsync & _ & Hd & Hf & Hk).
  cbn [final_page]. split; [|split; [|split]].
  - rewrite Hf. destruct (negb _ && negb _); [constructor|exact Hfield].
  - unfold rows_named. rewrite Hl. apply Forall_app. split; [exact Hrows|].
    constructor; [split; assumption|constructor].
  - now left.
  - eapply theme_settled_ext; [exact Hd| |exact Htheme].
    apply Hk, keys_differ.
Qed.

Lemma settled_alert (msg : jsstring) (s : page) : settled s -> settled (alert msg s).
Proof.
  intros (Hfield & Hrows & Htasks & Htheme). repeat split; assumption.
Qed.

Lemma wf_string_event_text (tag : jsstring) :
  wf_string tag -> wf_string (str "[object " ++ tag ++ str "]").
Proof.
  intros Htag. unfold wf_string. apply Forall_app. split.
  - repeat constructor; unfold code_unit; lia.
  - apply Forall_app. split; [exact Htag|].
    repeat constructor; unfold code_unit; lia.
Qed.

(** A click on the list changes nothing, or saves a list in which every row
    kept its text or is gone. *)
Lemma handleTaskActions_rows (target : element) (s : page) :
  handleTaskActions target s = s
  \/ (tasks_in_sync (handleTaskActions target s)
      /\ (rows_named s -> rows_named (handleTaskActions target s))).
Proof.
  destruct target as [|i|i|i]; [now left| | |]; right;
    (split; [cbn; apply saveTasks_in_sync|]); unfold rows_named; cbn.
  - intros Hall. apply Forall_alter; [exact Hall|]. intros r _ Hr. exact Hr.
  - intros Hall. apply Forall_alter; [exact Hall|]. intros r _ Hr. exact Hr.
  - apply Forall_delete.
Qed.

Lemma settled_dispatch (e : ui_event) (s : page) :
  wf_event e -> settled s -> settled (dispatch e s).
Proof.
  intros He Hs. destruct e as [text|key|tag|target|]; cbn [dispatch wf_event] in *.
  - destruct Hs as (_ & Hrows & Htasks & Htheme). repeat split; assumption.
  - unfold on_taskInput_keypress.
    destruct (jsstring_eqb key lit_Enter); [|exact Hs].
    destruct (is_empty_string (taskText_of VUndefined s)) eqn:Hempty.
    + rewrite addTask_rejected by assumption. now apply settled_alert.
    + apply (settled_addTask_accepted _ _ _ (trim (taskInput_value s)));
        try assumption; try reflexivity;
        cbn [taskText_of is_empty_string] in *.
      * now apply jsstring_eqb_false.
      * apply wf_string_trim, Hs.
    - unfold on_addButton_click.
      apply (settled_addTask_accepted _ _ _ (str "[object " ++ tag ++ str "]"));
        try assumption; try reflexivity.
      + discriminate.
      + now apply wf_string_event_text.
    - destruct Hs as (Hfield & Hrows & Htasks & Htheme).
      destruct (handleTaskActions_rows target s) as [Hsame|(Hsync & Hnamed)].
      + now rewrite Hsame.
      + split; [|split; [|split]].
        * now destruct target.
        * apply Hnamed, Hrows.
        * now left.
        * eapply theme_settled_ext; [| |exact Htheme]; [now destruct target|].
          destruct target; try reflexivity; cbn; unfold saveTasks;
            now apply getItem_setItem_other.
    - destruct Hs as (Hfield & Hrows & Htasks & _).
      split; [exact Hfield|]. split; [exact Hrows|]. split.
      + eapply tasks_settled_ext; [| |exact Htasks]; [reflexivity|].
        unfold toggleTheme. now rewrite getItem_setItem_other by apply keys_differ.
      + apply theme_settled_toggleTheme.
Qed.

Lemma settled_first_run : settled first_run.
Proof.
  split; [constructor|]. split; [constructor|].
  split; right; split; reflexivity.
Qed.

(** X16.  A session keeps the page settled.  Start from a settled page (the
    first run is one) and let the user edit the field, press keys, click
    the add button, click in the list and switch the theme, in any order
    and any number of times: afterwards every row still has a text, the
    store holds the rows on display (or nothing was ever stored and there
    are no rows), and the stored preference names the mode on display (or
    nothing was stored and the page is light). *)
Theorem session_keeps_settled (events : list ui_event) (s : page) :
  Forall wf_event events -> settled s -> settled (session events s).
Proof.
  intros Hev. revert s. unfold session.
  induction Hev as [|e events He _ IH]; intros s Hs; cbn [fold_left].
  - exact Hs.
  - apply IH. now apply settled_dispatch.
Qed.

(** X17.  Closing and reopening a settled page.  The start-up listener
    returns without error, and the page shows the same rows, in the same
    order with the same ticks, and the same theme as before; the store is
    unchanged and the page is settled again.  This holds whatever the
    browser put into the field of the reopened page. *)
Theorem restart_restores_settled_page (s : page) (typed : jsstring) :
  settled s ->
  wf_string typed ->
  exists s',
    on_DOMContentLoaded (restarted typed (localStorage s)) = Returns s'
    /\ taskList s' = taskList s
    /\ body_dark s' = body_dark s
    /\ localStorage s' = localStorage s
    /\ settled s'.
Proof.
  intros (_ & Hrows & Htasks & Htheme) Htyped.
  set (r := restarted typed (localStorage s)).
  assert (Hkey : forall k, getItem k r = getItem k s) by reflexivity.
  (* the rows *)
  assert (Hload : exists s1,
            loadTasks r = Returns s1 /\ taskList s1 = taskList s
            /\ getItem key_tasks s1 = getItem key_tasks s).
  { destruct Htasks as [Hsync | [Hnone Habsent]].
    - assert (Hnamed : Forall (fun x => li_text x <> []) (taskList s))
        by (eapply Forall_impl; [exact Hrows|]; now intros x [? ?]).
      assert (Hwf : Forall (fun x => wf_string (li_text x)) (taskList s))
        by (eapply Forall_impl; [exact Hrows|]; now intros x [? ?]).
      unfold tasks_in_sync in Hsync. rewrite <- Hkey in Hsync.
      destruct (forEach_addTask_task_objects (taskList s) Hnamed r)
        as (s1 & Hrun & Hl).
      exists s1. rewrite (loadTasks_saved_rows (taskList s) r Hsync Hwf).
      split; [exact Hrun|]. split; [exact Hl|].
      pose proof (forEach_addTask_sync (List.map task_object (taskList s)) r) as Hinv.
      rewrite Hrun in Hinv. destruct Hinv as [[_ Hstore]|Hs1].
      + unfold getItem. now rewrite Hstore.
      + unfold tasks_in_sync in Hs1. rewrite Hs1, Hl. cbn [app].
        rewrite <- Hkey. now rewrite Hsync.
    - exists r. unfold loadTasks. rewrite Hkey, Habsent.
      split; [reflexivity|]. split; [now rewrite Hnone|].
      reflexivity. }
  destruct Hload as (s1 & Hload & Hl1 & Htasks1).
  pose proof (loadTasks_keeps_theme r) as (Hd1 & Hk1).
  rewrite Hload in Hd1, Hk1. cbn [final_page] in Hd1, Hk1.
  assert (Hstore1 : localStorage s1 = localStorage s).
  { apply map_eq. intros k. destruct (decide (k = key_tasks)) as [->|Hk].
    - exact Htasks1.
    - fold (getItem k s1). fold (getItem k s). now rewrite Hk1, Hkey. }
  (* the theme *)
  destruct (loadTheme_keeps s1) as (Hf2 & Hl2 & _ & Hs2).
  assert (Hd2 : body_dark (loadTheme s1) = body_dark s).
  { rewrite body_dark_loadTheme. unfold getItem. rewrite Hstore1.
    fold (getItem key_themePreference s).
    destruct Htheme as [Hget | [Hget Hlight]]; rewrite Hget.
    - now rewrite theme_name_not_empty, theme_name_dark.
    - now rewrite Hd1, Hlight. }
  exists (loadTheme s1). unfold on_DOMContentLoaded. rewrite Hload.
  split; [reflexivity|]. split; [congruence|]. split; [exact Hd2|].
  split; [congruence|].
  split; [|split; [|split]].
  - rewrite Hf2.
    pose proof (forEach_addTask_field_wf) as Hfield.
    assert (Hwf1 : wf_string (taskInput_value (final_page (loadTasks r)))).
    { unfold loadTasks.
      destruct (getItem key_tasks r) as [saved|]; [|exact Htyped].
      destruct (negb (jsstring_eqb saved [])); [|exact Htyped].
      destruct (JSON_parse saved) as [[| | | |tasks|]|]; try exact Htyped.
      now apply Hfield. }
    now rewrite Hload in Hwf1.
  - unfold rows_named. now rewrite Hl2, Hl1.
  - apply (tasks_settled_ext s); [congruence| |exact Htasks].
    unfold getItem. congruence.
  - apply (theme_settled_ext s); [exact Hd2| |exact Htheme].
    unfold getItem. congruence.
Qed.

End Sessions.

(** * The claims on sample pages *)

#[local] Existing Instance literal_engine.

(** C1, counterexample.  The stored value is a saved list without its
    closing bracket.  It does not parse, and [loadTasks] does not return:
    the [SyntaxError] escapes. *)
Lemma reload_truncated_payload_raises :
  getItem key_tasks truncated_store = Some truncated_payload
  /\ JSON_parse truncated_payload = None
  /\ ~ (exists s', loadTasks truncated_store = Returns s' /\ taskList s' = []).
Proof.
  split; [reflexivity|]. split; [reflexivity|].
  intros (s' & Hrun & _).
  assert (Hthrows : loadTasks truncated_store = Throws SyntaxError truncated_store)
    by reflexivity.
  rewrite Hthrows in Hrun. discriminate Hrun.
Qed.

(** The same store, through the general statement. *)
Lemma loadTasks_unparseable_witness :
  loadTasks truncated_store = Throws SyntaxError truncated_store.
Proof.
  exact (loadTasks_unparseable truncated_store truncated_payload eq_refl eq_refl).
Defined.

(** C2, at the failing input.  The field holds only spaces and the add
    button is clicked.  No alert is shown; a row named after the click
    event is appended and saved. *)
Theorem addButton_click_on_blank_field :
  blank (taskInput_value blank_field)
  /\ alerts (on_addButton_click PointerEvent blank_field) = []
  /\ taskList (on_addButton_click PointerEvent blank_field)
     = [row "[object PointerEvent]" false]
  /\ getItem key_tasks (on_addButton_click PointerEvent blank_field)
     = Some (JSON_stringify (JArr [task_object (row "[object PointerEvent]" false)])).
Proof.
  split; [repeat constructor|]. repeat split; reflexivity.
Qed.

(** The same field and the [Enter] key: the alert, and nothing else. *)
Example keypress_Enter_on_blank_field :
  on_taskInput_keypress lit_Enter blank_field
  = alert msg_empty_task blank_field.
Proof. apply keypress_Enter_blank. repeat constructor. Qed.

(** C4, at the failing input.  The store holds one open task and the field
    already holds a draft when the script starts.  [loadTasks] returns with
    the task on display and the draft gone from the field. *)
Theorem reload_clears_draft :
  taskInput_value restarted_with_draft = str "draft"
  /\ exists s', loadTasks restarted_with_draft = Returns s'
       /\ taskList s' = [row "Walk dog" false]
       /\ taskInput_value s' = [].
Proof.
  split; [reflexivity|]. eexists. split; [reflexivity|]. split; reflexivity.
Qed.

(** C5, at the failing input.  [Buy milk] is typed and the add button is
    clicked.  The new row does not carry the typed text: it is named after
    the click event. *)
Theorem addButton_click_loses_typed_text :
  taskInput_value typed_Buy_milk = str "Buy milk"
  /\ taskList (on_addButton_click PointerEvent typed_Buy_milk)
     = [row "[object PointerEvent]" false]
  /\ row "[object PointerEvent]" false <> row "Buy milk" false.
Proof.
  split; [reflexivity|]. split; [reflexivity|]. discriminate.
Qed.

(** The same text and the [Enter] key: the typed text becomes the row. *)
Example keypress_Enter_keeps_typed_text :
  taskList (on_taskInput_keypress lit_Enter typed_Buy_milk)
  = [row "Buy milk" false].
Proof. reflexivity. Qed.

(** Two rows, one ticked, saved and reloaded. *)
Lemma persist_then_reload_witness :
  exists s', loadTasks (restarted [] store_of_two_rows) = Returns s'
    /\ taskList s' = [row "Buy milk" true; row "Walk dog" false].
Proof.
  apply (persist_then_reload two_rows (restarted [] store_of_two_rows)).
  - repeat constructor; discriminate.
  - repeat constructor; unfold code_unit; lia.
  - reflexivity.
  - reflexivity.
Defined.


(** Two clicks on the text of the second row. *)
Lemma toggle_twice_restores_witness :
  taskList (handleTaskActions (TaskTextSpan 1)
              (handleTaskActions (TaskTextSpan 1) two_rows))
  = taskList two_rows.
Proof.
  exact (toggle_twice_restores two_rows (TaskTextSpan 1) eq_refl).
Defined.


(** One toggle on the first run, then a restart. *)
Lemma toggleTheme_then_reload_witness :
  body_dark (toggleTheme first_run) = negb (body_dark first_run)
  /\ getItem key_themePreference (toggleTheme first_run)
     = Some (if body_dark (toggleTheme first_run) then lit_dark else lit_light)
  /\ body_dark (loadTheme (restarted [] (localStorage (toggleTheme first_run))))
     = body_dark (toggleTheme first_run).
Proof.
  exact (toggleTheme_then_reload first_run
           (restarted [] (localStorage (toggleTheme first_run))) eq_refl).
Defined.



(** The scenario of the specification: two tasks are added, the first is
    ticked, and the page is reopened. *)
Example scenario_add_toggle_reload :
  let before :=
    handleTaskActions (Li 0)
      (type_and_Enter "Walk dog" (type_and_Enter "Buy milk" first_run)) in
  taskList before = [row "Buy milk" true; row "Walk dog" false]
  /\ exists s', loadTasks (restarted [] (localStorage before)) = Returns s'
       /\ taskList s' = taskList before
       /\ tasks_in_sync s'.
Proof.
  cbv zeta. split; [reflexivity|]. eexists. split; [reflexivity|].
  split; reflexivity.
Qed.

(** The theme scenario: absent preference, one toggle, a restart. *)
Example scenario_theme :
  body_dark (loadTheme first_run) = false
  /\ body_dark (toggleTheme first_run) = true
  /\ getItem key_themePreference (toggleTheme first_run) = Some lit_dark
  /\ body_dark (loadTheme (restarted [] (localStorage (toggleTheme first_run)))) = true.
Proof. repeat split; reflexivity. Qed.

(** * Beyond the claims, on sample pages *)

Lemma typed_Buy_milk_not_blank : ~ blank (taskInput_value typed_Buy_milk).
Proof. intros Hb. inversion Hb as [|c r Hc _]. discriminate Hc. Qed.

(** Keys on a blank field and on a typed task. *)
Lemma keypress_listener_witness :
  on_taskInput_keypress (str "a") blank_field = blank_field
  /\ on_taskInput_keypress lit_Enter blank_field = alert msg_empty_task blank_field
  /\ taskList (on_taskInput_keypress lit_Enter typed_Buy_milk)
     = [row "Buy milk" false].
Proof.
  split; [|split].
  - apply (proj1 (keypress_listener (str "a") blank_field)). discriminate.
  - apply (proj1 (proj2 (keypress_listener lit_Enter blank_field)));
      [reflexivity|repeat constructor].
  - apply (proj2 (proj2 (keypress_listener lit_Enter typed_Buy_milk)));
      [reflexivity|exact typed_Buy_milk_not_blank].
Defined.

(** A task typed with spaces around it. *)
Lemma keypress_Enter_row_text_witness :
  exists before text after,
    str "  Walk dog " = before ++ text ++ after
    /\ blank before /\ blank after
    /\ text <> []
    /\ (forall c r, text = c :: r -> is_js_space c = false)
    /\ (forall body c, text = body ++ [c] -> is_js_space c = false)
    /\ taskList (on_taskInput_keypress lit_Enter
                   (set_taskInput_value (str "  Walk dog ") first_run))
       = [] ++ [{| li_completed := false; li_text := text |}].
Proof.
  apply (keypress_Enter_row_text (set_taskInput_value (str "  Walk dog ") first_run)).
  intros Hb. inversion Hb as [|c1 r1 _ Hb1]. inversion Hb1 as [|c2 r2 _ Hb2].
  inversion Hb2 as [|c3 r3 Hc _]. discriminate Hc.
Defined.

(** Clicks on two rows. *)
Lemma handleTaskActions_frame_witness :
  li_text <$> taskList (handleTaskActions (Li 1) two_rows)
  = li_text <$> taskList two_rows
  /\ li_text <$> taskList (handleTaskActions (DeleteButton 0) two_rows)
     = delete 0%nat (li_text <$> taskList two_rows)
  /\ getItem key_themePreference (handleTaskActions (Li 1) two_rows)
     = getItem key_themePreference two_rows.
Proof.
  destruct (handleTaskActions_frame (Li 1) two_rows) as (_ & _ & _ & Hk & Ht & _).
  destruct (handleTaskActions_frame (DeleteButton 0) two_rows)
    as (_ & _ & _ & _ & _ & Hd).
  split; [apply Ht; reflexivity|]. split; [apply Hd; reflexivity|].
  apply Hk. discriminate.
Defined.

Lemma toggles_commute_witness :
  handleTaskActions (Li 0) (handleTaskActions (TaskTextSpan 1) two_rows)
  = handleTaskActions (TaskTextSpan 1) (handleTaskActions (Li 0) two_rows).
Proof.
  exact (toggles_commute (Li 0) (TaskTextSpan 1) two_rows eq_refl eq_refl).
Defined.

Lemma toggle_twice_is_save_witness :
  handleTaskActions (Li 0) (handleTaskActions (Li 0) two_rows) = saveTasks two_rows
  /\ handleTaskActions (Li 0) (handleTaskActions (Li 0) (saveTasks two_rows))
     = saveTasks two_rows.
Proof.
  split.
  - apply (toggle_twice_is_save (Li 0) two_rows); [reflexivity|discriminate].
  - apply (toggle_twice_is_save (Li 0) (saveTasks two_rows));
      [reflexivity|discriminate|reflexivity].
Defined.

Lemma toggleTheme_twice_witness :
  toggleTheme (toggleTheme (toggleTheme first_run)) = toggleTheme first_run.
Proof.
  apply (proj2 (proj2 (toggleTheme_twice (toggleTheme first_run)))). reflexivity.
Defined.

Lemma theme_functions_frame_witness :
  getItem key_tasks (toggleTheme (saveTasks two_rows))
  = getItem key_tasks (saveTasks two_rows).
Proof.
  destruct (theme_functions_frame (saveTasks two_rows)) as ((_ & _ & _ & Hk) & _).
  apply Hk. discriminate.
Defined.

Lemma addTask_frame_witness :
  getItem key_themePreference
    (final_page (addTask VUndefined VUndefined (toggleTheme typed_Buy_milk)))
  = getItem key_themePreference (toggleTheme typed_Buy_milk)
  /\ (forall e s',
      addTask (VJson unprintable_text) VUndefined two_rows = Throws e s' ->
      e = TypeError /\ s' = two_rows).
Proof.
  destruct (addTask_frame VUndefined VUndefined (toggleTheme typed_Buy_milk))
    as (_ & Hk & _).
  destruct (addTask_frame (VJson unprintable_text) VUndefined two_rows)
    as (_ & _ & _ & _ & Hthrow).
  split; [apply Hk; discriminate | exact Hthrow].
Defined.

(** The text that cannot be printed does make [addTask] throw. *)
Example addTask_unprintable_text :
  addTask (VJson unprintable_text) VUndefined two_rows
  = Throws TypeError two_rows.
Proof. reflexivity. Qed.

(** The row before the unprintable text is shown and saved; at that text a
    [TypeError] escapes, the row after it never appears, and the stored
    [dark] preference is not applied. *)
Example reload_unprintable_text :
  JSON_parse payload_unprintable
  = Some (JArr [task_object (row "Buy milk" false);
                JObj [(key_text, unprintable_text)];
                task_object (row "Walk dog" false)])
  /\ exists s',
       on_DOMContentLoaded unprintable_store_dark = Throws TypeError s'
       /\ taskList s' = [row "Buy milk" false]
       /\ body_dark s' = false.
Proof.
  split; [reflexivity|]. eexists. split; [reflexivity|]. split; reflexivity.
Qed.

Lemma loadTasks_frame_witness :
  getItem key_themePreference (final_page (loadTasks unprintable_store_dark))
  = getItem key_themePreference unprintable_store_dark
  /\ body_dark (final_page (loadTasks unprintable_store_dark)) = false
  /\ taskList unprintable_store_dark
     `prefix_of` taskList (final_page (loadTasks unprintable_store_dark)).
Proof.
  destruct (loadTasks_frame unprintable_store_dark) as (Hd & Hk & Hrows & _).
  split; [apply Hk; discriminate|]. split; [exact Hd | exact Hrows].
Defined.

Lemma wf_rows_with_gap : Forall (fun r => wf_string (li_text r)) rows_with_gap.
Proof. repeat constructor; unfold code_unit; lia. Defined.

(** A saved row without text is left out on reload, with one alert. *)
Lemma reload_saved_rows_witness :
  exists s',
    loadTasks (restarted [] store_with_gap) = Returns s'
    /\ taskList s' = [] ++ [row "Buy milk" true; row "Walk dog" false]
    /\ alerts s' = [] ++ [msg_empty_task].
Proof.
  exact (reload_saved_rows rows_with_gap (restarted [] store_with_gap)
           eq_refl wf_rows_with_gap).
Defined.

(** The row before the [null] is shown and saved, the one after is not. *)
Lemma reload_stops_at_null_witness :
  exists s',
    loadTasks (restarted [] (<[key_tasks := payload_with_null]> ∅))
    = Throws TypeError s'
    /\ taskList s' = [] ++ [row "Buy milk" false]
    /\ ([row "Buy milk" false] <> [] -> tasks_in_sync s').
Proof.
  apply (reload_stops_at_null [row "Buy milk" false]
           [task_object (row "Walk dog" false)] payload_with_null
           (restarted [] (<[key_tasks := payload_with_null]> ∅))).
  - reflexivity.
  - reflexivity.
  - repeat constructor; discriminate.
Defined.

(** An empty stored object turns the draft in the field into a row. *)
Lemma reload_entry_without_text_witness :
  exists s',
    loadTasks (restarted (str "draft") (<[key_tasks := payload_bare_object]> ∅))
    = Returns s'
    /\ taskList s' = [row "draft" false].
Proof.
  assert (Hget : getItem key_tasks
                   (restarted (str "draft") (<[key_tasks := payload_bare_object]> ∅))
                 = Some payload_bare_object) by reflexivity.
  assert (Hparse : JSON_parse payload_bare_object = Some (JArr [JObj []]))
    by reflexivity.
  destruct (reload_entry_without_text [] payload_bare_object
              (restarted (str "draft") (<[key_tasks := payload_bare_object]> ∅))
              Hget Hparse eq_refl) as (s' & Hrun & _ & Hrow).
  exists s'. split; [exact Hrun|].
  apply Hrow. intros Hb. inversion Hb as [|c r Hc _]. discriminate Hc.
Defined.

(** The stored preference is [dark]; the second stored entry cannot be
    printed, and the page stays light. *)
Lemma startup_error_skips_theme_witness :
  on_DOMContentLoaded unprintable_store_dark
  = Throws TypeError (final_page (loadTasks unprintable_store_dark))
  /\ body_dark (final_page (loadTasks unprintable_store_dark))
     = body_dark unprintable_store_dark
  /\ getItem key_themePreference (final_page (loadTasks unprintable_store_dark))
     = getItem key_themePreference unprintable_store_dark.
Proof.
  apply (startup_error_skips_theme unprintable_store_dark
           (final_page (loadTasks unprintable_store_dark)) TypeError).
  reflexivity.
Defined.

Lemma wf_sample_session : Forall wf_event sample_session.
Proof. repeat constructor; unfold code_unit; lia. Defined.

Lemma session_keeps_settled_witness :
  settled (session sample_session first_run).
Proof.
  exact (session_keeps_settled sample_session first_run wf_sample_session
           settled_first_run).
Defined.

(** The sample session, then a restart with a draft in the field. *)
Lemma restart_restores_settled_page_witness :
  exists s',
    on_DOMContentLoaded
      (restarted (str "draft") (localStorage (session sample_session first_run)))
    = Returns s'
    /\ taskList s' = taskList (session sample_session first_run)
    /\ body_dark s' = body_dark (session sample_session first_run)
    /\ localStorage s' = localStorage (session sample_session first_run)
    /\ settled s'.
Proof.
  apply (restart_restores_settled_page (session sample_session first_run)
           (str "draft")).
  - unfold session, sample_session. cbn [fold_left].
    repeat (apply settled_dispatch;
            [cbn [wf_event];
             first [exact I | repeat constructor; unfold code_unit; lia]|]).
    exact settled_first_run.
  - repeat constructor; unfold code_unit; lia.
Defined.

(** A draft in the field survives the reload of ticked rows. *)
Lemma reload_keeps_field_witness :
  exists s',
    loadTasks
      (restarted (str "draft")
         (localStorage (@saveTasks literal_engine
                          (set_taskList [row "Buy milk" true] first_run))))
    = Returns s'
    /\ taskInput_value s' = str "draft".
Proof.
  apply (reload_keeps_field [row "Buy milk" true]
           (restarted (str "draft")
              (localStorage (@saveTasks literal_engine
                               (set_taskList [row "Buy milk" true] first_run))))).
  - reflexivity.
  - repeat constructor; unfold code_unit; lia.
  - right. repeat constructor.
Defined.

Lemma add_then_delete_witness :
  exists s1,
    addTask (VJson (JStr (str "Call mum"))) VUndefined two_rows = Returns s1
    /\ length (taskList s1) = 3%nat
    /\ taskList (handleTaskActions (DeleteButton 2) s1) = taskList two_rows.
Proof.
  exists (final_page (addTask (VJson (JStr (str "Call mum"))) VUndefined two_rows)).
  assert (Hrun : addTask (VJson (JStr (str "Call mum"))) VUndefined two_rows
                 = Returns (final_page
                              (addTask (VJson (JStr (str "Call mum")))
                                 VUndefined two_rows)))
    by reflexivity.
  split; [exact Hrun|].
  destruct (add_then_delete _ _ _ _ Hrun eq_refl) as (Hlen & Hrows & _).
  split; [exact Hlen | exact Hrows].
Defined.

(** Where the sample session ends. *)
Example sample_session_rows :
  taskList (session sample_session first_run)
  = [row "Buy milk" true; row "Walk dog" false; row "[object PointerEvent]" false]
  /\ body_dark (session sample_session first_run) = true.
Proof. split; reflexivity. Qed.
